(** * UnQCoder: the markdown renderer overrides and the chat-history row

    A shallow embedding of
    - [stripCodeFenceFromArtifact] and the [pre] and [button] overrides of
      the [Markdown] component, and
    - the click handlers of the [HistoryItem] component,
    followed by the properties of them that the specification states. *)

From Stdlib Require Import List Bool Arith ZArith NArith Lia.
From Stdlib Require Import Ascii String DecimalString.
Import ListNotations.

Set Implicit Arguments.

(* ===================================================================== *)
(** ** JavaScript strings *)
(* ===================================================================== *)

Module Js.

(** A JavaScript string is a finite sequence of UTF-16 code units. *)
Definition code_unit := N.
Definition jsstring := list code_unit.

(** An ASCII literal as a JavaScript string. *)
Definition u (s : string) : jsstring :=
  List.map N_of_ascii (list_ascii_of_string s).

Definition LF : code_unit := 10%N.
Definition BACKTICK : code_unit := 96%N.

Fixpoint string_eqb (a b : jsstring) : bool :=
  match a, b with
  | [], [] => true
  | x :: a', y :: b' => N.eqb x y && string_eqb a' b'
  | _, _ => false
  end.

(** [s.startsWith(p)] *)
Fixpoint starts_with (p s : jsstring) : bool :=
  match p, s with
  | [], _ => true
  | _ :: _, [] => false
  | x :: p', y :: s' => N.eqb x y && starts_with p' s'
  end.

(** [s.includes(m)] *)
Fixpoint includes (s m : jsstring) : bool :=
  starts_with m s ||
  match s with
  | [] => false
  | _ :: s' => includes s' m
  end.

(** [s.split('\n')]: never empty, [''.split('\n')] is [['']]. *)
Fixpoint split_lines (s : jsstring) : list jsstring :=
  match s with
  | [] => [[]]
  | c :: s' =>
      if N.eqb c LF then [] :: split_lines s'
      else match split_lines s' with
           | l :: ls => (c :: l) :: ls
           | [] => [[c]]
           end
  end.

(** [lines.join('\n')] *)
Fixpoint join_lines (ls : list jsstring) : jsstring :=
  match ls with
  | [] => []
  | [l] => l
  | l :: ls' => l ++ LF :: join_lines ls'
  end.

(** [parts.join(',')], the separator of [Array.prototype.toString]. *)
Fixpoint join_comma (ls : list jsstring) : jsstring :=
  match ls with
  | [] => []
  | [l] => l
  | l :: ls' => l ++ 44%N :: join_comma ls'
  end.

(** [lines.findIndex(p)]: the first index whose element satisfies [p], and
    [-1] when there is none. *)
Fixpoint find_index_from (p : jsstring -> bool) (ls : list jsstring) (i : Z) : Z :=
  match ls with
  | [] => (-1)%Z
  | l :: ls' => if p l then i else find_index_from p ls' (i + 1)%Z
  end.

Definition find_index (p : jsstring -> bool) (ls : list jsstring) : Z :=
  find_index_from p ls 0%Z.

(** [lines[i]] for a number [i]: [undefined] ([None]) out of range. *)
Definition array_get (ls : list jsstring) (i : Z) : option jsstring :=
  if (i <? 0)%Z then None else nth_error ls (Z.to_nat i).

(** [lines[i] = v] for [0 <= i].  Past the end JavaScript grows the array
    and leaves holes, which [join] prints like empty strings. *)
Fixpoint array_set_nat (ls : list jsstring) (i : nat) (v : jsstring) : list jsstring :=
  match ls, i with
  | [], O => [v]
  | [], S i' => [] :: array_set_nat [] i' v
  | _ :: ls', O => v :: ls'
  | x :: ls', S i' => x :: array_set_nat ls' i' v
  end.

Definition array_set (ls : list jsstring) (i : Z) (v : jsstring) : list jsstring :=
  array_set_nat ls (Z.to_nat i) v.

(** The code units [String.prototype.trim] strips: WhiteSpace and
    LineTerminator of ECMA-262. *)
Definition is_white_space (c : code_unit) : bool :=
  (N.eqb c 9 || N.eqb c 10 || N.eqb c 11 || N.eqb c 12 || N.eqb c 13
   || N.eqb c 32 || N.eqb c 160 || N.eqb c 5760
   || (N.leb 8192 c && N.leb c 8202)
   || N.eqb c 8232 || N.eqb c 8233 || N.eqb c 8239 || N.eqb c 8287
   || N.eqb c 12288 || N.eqb c 65279)%N.

Fixpoint trim_start (s : jsstring) : jsstring :=
  match s with
  | [] => []
  | c :: s' => if is_white_space c then trim_start s' else s
  end.

Definition trim_end (s : jsstring) : jsstring := rev (trim_start (rev s)).

(** [s.trim()] *)
Definition trim (s : jsstring) : jsstring := trim_end (trim_start s).

(** The class [\w] of a regular expression without the [u] or [i] flag:
    [A-Za-z0-9_]. *)
Definition is_word (c : code_unit) : bool :=
  ((N.leb 48 c && N.leb c 57) || (N.leb 65 c && N.leb c 90)
   || N.eqb c 95 || (N.leb 97 c && N.leb c 122))%N.

(** The longest prefix of word characters, what a greedy [\w*] consumes. *)
Fixpoint take_word (s : jsstring) : jsstring :=
  match s with
  | [] => []
  | c :: s' => if is_word c then c :: take_word s' else []
  end.

(** [s] without the prefix [p], when it starts with it. *)
Fixpoint strip_prefix (p s : jsstring) : option jsstring :=
  match p, s with
  | [], _ => Some s
  | _ :: _, [] => None
  | x :: p', y :: s' => if N.eqb x y then strip_prefix p' s' else None
  end.

(** Decimal digits of a non-negative integer, as [String(n)] prints every
    integer below 10^21. *)
Definition decimal (n : N) : jsstring :=
  u (NilZero.string_of_uint (N.to_uint n)).

End Js.

Import Js.

(* ===================================================================== *)
(** ** Markdown.tsx: stripCodeFenceFromArtifact *)
(* ===================================================================== *)

Module Markdown.

Definition ARTIFACT_MARKER : jsstring := u "__boltArtifact__".

(** [/^```\w*$/] tested on a whole string (no [m] flag): three backticks
    followed by word characters only. *)
Definition is_open_fence (s : jsstring) : bool :=
  match s with
  | a :: b :: c :: rest =>
      N.eqb a BACKTICK && N.eqb b BACKTICK && N.eqb c BACKTICK
      && forallb is_word rest
  | _ => false
  end.

(** [/^```$/] tested on a whole string: exactly three backticks. *)
Definition is_close_fence (s : jsstring) : bool :=
  match s with
  | [a; b; c] => N.eqb a BACKTICK && N.eqb b BACKTICK && N.eqb c BACKTICK
  | _ => false
  end.

(** [lines[i]?.trim().match(re)] as a condition: [undefined] and [null]
    are falsy, a match array is truthy. *)
Definition line_matches (re : jsstring -> bool) (lines : list jsstring) (i : Z) : bool :=
  match array_get lines i with
  | None => false
  | Some l => re (trim l)
  end.

Definition stripCodeFenceFromArtifact (content : jsstring) : jsstring :=
  if match content with [] => true | _ => false end
     || negb (includes content ARTIFACT_MARKER)
  then content
  else
    let lines := split_lines content in
    let artifactLineIndex :=
      find_index (fun line => includes line ARTIFACT_MARKER) lines in
    if (artifactLineIndex =? -1)%Z then content
    else
      let lines :=
        if (0 <? artifactLineIndex)%Z
           && line_matches is_open_fence lines (artifactLineIndex - 1)%Z
        then array_set lines (artifactLineIndex - 1)%Z []
        else lines in
      let lines :=
        if (artifactLineIndex <? Z.of_nat (List.length lines) - 1)%Z
           && line_matches is_close_fence lines (artifactLineIndex + 1)%Z
        then array_set lines (artifactLineIndex + 1)%Z []
        else lines in
      join_lines lines.

(** *** The node tree handed to the overrides (hast) *)

(** A property value of a hast element.  Numeric values, which hast yields
    for attributes such as [cols] or [tabIndex] only, are left out: the
    overrides read [className], [class] and [data-*] properties. *)
Inductive PropValue :=
| PUndefined
| PNull
| PBool (b : bool)
| PString (s : jsstring)
| PList (tokens : list jsstring).

(** A properties object, in insertion order. *)
Definition Properties := list (jsstring * PropValue).

(** [properties[key]] for the keys the overrides read ([className],
    [class], [data-type], [dataType], ...): none of them is a name that
    [Object.prototype] defines, so an absent key reads as [undefined]. *)
Fixpoint prop_get (ps : Properties) (key : jsstring) : PropValue :=
  match ps with
  | [] => PUndefined
  | (k, v) :: ps' => if string_eqb k key then v else prop_get ps' key
  end.

(** The object rest pattern [{ key, ...rest }]. *)
Fixpoint prop_remove (ps : Properties) (key : jsstring) : Properties :=
  match ps with
  | [] => []
  | (k, v) :: ps' =>
      if string_eqb k key then prop_remove ps' key else (k, v) :: prop_remove ps' key
  end.

(** A node below an element: a text, a comment or an element. *)
#[local] Unset Elimination Schemes.
Inductive HastNode :=
| HText (value : jsstring)
| HComment (value : jsstring)
| HElement (tagName : jsstring) (properties : Properties) (children : list HastNode).
#[local] Set Elimination Schemes.

(** [String(v)] and [`${v}`] *)
Definition to_string (v : PropValue) : jsstring :=
  match v with
  | PUndefined => u "undefined"
  | PNull => u "null"
  | PBool true => u "true"
  | PBool false => u "false"
  | PString s => s
  | PList l => join_comma l
  end.

(** ToBoolean *)
Definition truthy (v : PropValue) : bool :=
  match v with
  | PUndefined | PNull => false
  | PBool b => b
  | PString [] => false
  | PString (_ :: _) => true
  | PList _ => true
  end.

(** [a || b] *)
Definition js_or (a b : PropValue) : PropValue := if truthy a then a else b.

(** [v === s] for a string [s] *)
Definition strict_eq_string (v : PropValue) (s : jsstring) : bool :=
  match v with
  | PString t => string_eqb t s
  | _ => false
  end.

(** [typeof v === 'string'] *)
Definition is_string (v : PropValue) : bool :=
  match v with
  | PString _ => true
  | _ => false
  end.

(** A call either returns or throws. *)
Inductive JsError :=
| TypeError (message : jsstring).

Inductive Result (A : Type) :=
| Return (a : A)
| Throw (e : JsError).

Arguments Return {A} a.
Arguments Throw {A} e.

(** *** components.pre *)

(** [/language-(\w+)/] matched at the start of [s]: the first capture. *)
Definition language_match_here (s : jsstring) : option jsstring :=
  match strip_prefix (u "language-") s with
  | None => None
  | Some rest =>
      match take_word rest with
      | [] => None
      | w => Some w
      end
  end.

(** [/language-(\w+)/.exec(s)]: the leftmost match, [None] for [null]. *)
Fixpoint language_exec (s : jsstring) : option jsstring :=
  match language_match_here s with
  | Some w => Some w
  | None =>
      match s with
      | [] => None
      | _ :: s' => language_exec s'
      end
  end.

(** [const [, language = 'plaintext'] =
      /language-(\w+)/.exec(String(className) || '') ?? []] *)
Definition language_of (className : PropValue) : jsstring :=
  let subject := match to_string className with [] => [] | s => s end in
  match language_exec subject with
  | Some language => language
  | None => u "plaintext"
  end.

Section Pre.

(** What React passes on untouched: the rendered children and the
    remaining props. *)
Variables ReactNode RestProps : Type.

Record PreProps := {
  pre_children : ReactNode;
  pre_node : option HastNode;
  pre_rest : RestProps
}.

Inductive PreOutput :=
| CodeBlock (code : jsstring) (language : jsstring) (rest : Properties)
| PreElement (rest : RestProps) (children : ReactNode).

(** [node?.children ?? []] *)
Definition children_or_empty (node : option HastNode) : list HastNode :=
  match node with
  | Some (HElement _ _ cs) => cs
  | _ => []
  end.

Definition components_pre (props : PreProps) : Result PreOutput :=
  let generic := Return (PreElement (pre_rest props) (pre_children props)) in
  match children_or_empty (pre_node props) with
  | HElement tagName properties children :: _ =>
      if string_eqb tagName (u "code") then
        match children with
        | [] =>
            (* firstChild.children[0] is undefined and its [type] is read *)
            Throw (TypeError (u "Cannot read properties of undefined (reading 'type')"))
        | HText value :: _ =>
            Return (CodeBlock value
                      (language_of (prop_get properties (u "className")))
                      (prop_remove properties (u "className")))
        | _ :: _ => generic
        end
      else generic
  | _ => generic
  end.

End Pre.

Arguments CodeBlock {ReactNode RestProps} code language rest.
Arguments PreElement {ReactNode RestProps} rest children.

(** *** components.button *)

Definition QUICK_ACTION_MARKER : jsstring := u "__boltQuickAction__".

(** What an object literal inherits from [Object.prototype]. *)
Definition object_prototype_keys : list jsstring :=
  [u "constructor"; u "hasOwnProperty"; u "isPrototypeOf";
   u "propertyIsEnumerable"; u "toLocaleString"; u "toString"; u "valueOf";
   u "__proto__"; u "__defineGetter__"; u "__defineSetter__";
   u "__lookupGetter__"; u "__lookupSetter__"].

(** The result of reading a property of [iconClassMap]. *)
Inductive Value :=
| VUndefined
| VString (s : jsstring)
| VInherited (key : jsstring).  (* what [Object.prototype] holds under [key] *)

Fixpoint own_get (own : list (jsstring * jsstring)) (key : jsstring) : option jsstring :=
  match own with
  | [] => None
  | (k, v) :: own' => if string_eqb k key then Some v else own_get own' key
  end.

(** [obj[key]] for an object literal [obj] with the own properties [own]:
    own properties first, then the prototype chain. *)
Definition object_get (own : list (jsstring * jsstring)) (key : jsstring) : Value :=
  match own_get own key with
  | Some v => VString v
  | None =>
      if existsb (string_eqb key) object_prototype_keys then VInherited key
      else VUndefined
  end.

(** [v ?? d] *)
Definition nullish_or (v : Value) (d : jsstring) : Value :=
  match v with
  | VUndefined => VString d
  | _ => v
  end.

Definition iconClassMap : list (jsstring * jsstring) :=
  [(u "file", u "i-ph:file");
   (u "message", u "i-ph:chats");
   (u "implement", u "i-ph:code");
   (u "link", u "i-ph:link")].

Inductive Role := RoleSystem | RoleUser | RoleAssistant | RoleData.

Inductive ContentPart :=
| TextPart (text : jsstring).

Record Message := {
  msg_id : jsstring;
  msg_content : list ContentPart;
  msg_role : Role
}.

Inductive ChatMode := Discuss | Build.

Record ProviderInfo := { provider_name : jsstring }.

(** What a click on a quick-action button does to the outside. *)
Inductive Effect :=
| OpenArtifactInWorkbench (path : PropValue)
| Append (m : Message)
| SetChatMode (mode : ChatMode)
| WindowOpen (url target features : jsstring)
| ConsoleLog (label : jsstring) (arg : PropValue)
| ConsoleError (label : jsstring) (arg : PropValue).

(** The props of [Markdown] the handler closes over, and what it reads
    when it runs. *)
Record Env := {
  append : bool;                    (* was [append] supplied *)
  setChatMode : bool;               (* was [setChatMode] supplied *)
  model : option jsstring;
  provider : option ProviderInfo;
  now : N;                          (* [Date.now()] *)
  origin : jsstring                 (* [window.location.origin] *)
}.

Definition opt_to_string (s : option jsstring) : jsstring :=
  match s with
  | Some s => s
  | None => u "undefined"
  end.

(** [`[Model: ${model}]\n\n[Provider: ${provider?.name}]\n\n${message}`] *)
Definition annotated_text (env : Env) (message : PropValue) : jsstring :=
  u "[Model: " ++ opt_to_string (model env) ++ u "]" ++ [LF; LF]
  ++ u "[Provider: " ++ opt_to_string (option_map provider_name (provider env))
  ++ u "]" ++ [LF; LF] ++ to_string message.

Record QuickAction := {
  qa_type : PropValue;
  qa_message : PropValue;
  qa_path : PropValue;
  qa_href : PropValue;
  qa_iconClass : Value
}.

Section Button.

Variables ReactNode RestProps : Type.

(** [new URL(href, base).toString()], [None] when the constructor throws. *)
Variable resolve_url : jsstring -> jsstring -> option jsstring.

Record ButtonProps := {
  btn_node : option HastNode;
  btn_children : ReactNode;
  btn_rest : RestProps
}.

Inductive ButtonOutput :=
| QuickActionButton (qa : QuickAction) (children : ReactNode)
| ButtonElement (rest : RestProps) (children : ReactNode).

(** [node?.properties] *)
Definition properties_of (node : option HastNode) : option Properties :=
  match node with
  | Some (HElement _ ps _) => Some ps
  | _ => None
  end.

(** [dataProps?.class?.toString().includes('__boltQuickAction__') ||
     dataProps?.dataBoltQuickAction === 'true'] *)
Definition is_quick_action (dataProps : option Properties) : bool :=
  match dataProps with
  | None => false
  | Some ps =>
      match prop_get ps (u "class") with
      | PUndefined | PNull => false
      | v => includes (to_string v) QUICK_ACTION_MARKER
      end
      || strict_eq_string (prop_get ps (u "dataBoltQuickAction")) (u "true")
  end.

Definition quick_action_of (ps : Properties) : QuickAction :=
  let type := js_or (prop_get ps (u "data-type")) (prop_get ps (u "dataType")) in
  let message := js_or (prop_get ps (u "data-message")) (prop_get ps (u "dataMessage")) in
  let path := js_or (prop_get ps (u "data-path")) (prop_get ps (u "dataPath")) in
  let href := js_or (prop_get ps (u "data-href")) (prop_get ps (u "dataHref")) in
  let safeType := match type with PString s => s | _ => [] end in
  let iconClass := nullish_or (object_get iconClassMap safeType) (u "i-ph:question") in
  {| qa_type := type; qa_message := message; qa_path := path; qa_href := href;
     qa_iconClass := iconClass |}.

(** The [onClick] of a quick-action button. *)
Definition onClick (qa : QuickAction) (env : Env) : list Effect :=
  let type := qa_type qa in
  let message := qa_message qa in
  if strict_eq_string type (u "file") then
    [OpenArtifactInWorkbench (qa_path qa)]
  else if strict_eq_string type (u "message") && append env then
    [Append {| msg_id := u "quick-action-message-" ++ decimal (now env);
               msg_content := [TextPart (annotated_text env message)];
               msg_role := RoleUser |};
     ConsoleLog (u "Message appended:") message]
  else if strict_eq_string type (u "implement") && append env && setChatMode env then
    [SetChatMode Build;
     Append {| msg_id := u "quick-action-implement-" ++ decimal (now env);
               msg_content := [TextPart (annotated_text env message)];
               msg_role := RoleUser |}]
  else if strict_eq_string type (u "link") && is_string (qa_href qa) then
    match resolve_url (to_string (qa_href qa)) (origin env) with
    | Some url => [WindowOpen url (u "_blank") (u "noopener,noreferrer")]
    | None => [ConsoleError (u "Invalid URL:") (qa_href qa)]
    end
  else [].

Definition components_button (props : ButtonProps) : ButtonOutput :=
  let dataProps := properties_of (btn_node props) in
  if is_quick_action dataProps then
    match dataProps with
    | Some ps => QuickActionButton (quick_action_of ps) (btn_children props)
    | None => ButtonElement (btn_rest props) (btn_children props)
    end
  else ButtonElement (btn_rest props) (btn_children props).

End Button.

Arguments QuickActionButton {ReactNode RestProps} qa children.
Arguments ButtonElement {ReactNode RestProps} rest children.

End Markdown.

(* ===================================================================== *)
(** ** HistoryItem.tsx *)
(* ===================================================================== *)

Module HistoryItem.

Record ChatHistoryItem := {
  id : jsstring;
  urlId : jsstring;
  description : jsstring
}.

(** The props; an optional callback is recorded by whether it was
    supplied. *)
Record HistoryItemProps := {
  item : ChatHistoryItem;
  onDelete : bool;
  onDuplicate : bool;
  selectionMode : bool;
  isSelected : bool;
  onToggleSelection : bool
}.

(** A React synthetic event, as far as the handlers touch it. *)
Record Event := {
  defaultPrevented : bool;
  propagationStopped : bool
}.

Definition fresh_event : Event :=
  {| defaultPrevented := false; propagationStopped := false |}.

Definition preventDefault (e : Event) : Event :=
  {| defaultPrevented := true; propagationStopped := propagationStopped e |}.

Definition stopPropagation (e : Event) : Event :=
  {| defaultPrevented := defaultPrevented e; propagationStopped := true |}.

(** The calls into the collaborators, and the browser's navigation. *)
Inductive Effect :=
| ToggleSelection (id : jsstring)   (* onToggleSelection(id) *)
| Delete                            (* onDelete(event) *)
| Duplicate (id : jsstring)         (* onDuplicate(id) *)
| ExportChat (id : jsstring)        (* exportChat(id) *)
| ToggleEditMode                    (* toggleEditMode() *)
| Navigate (href : jsstring)        (* the anchor is followed *)
| HandleSubmit                      (* handleSubmit(event) *)
| HandleChange                      (* handleChange(event) *)
| HandleBlur                        (* handleBlur(event) *)
| HandleKeyDown.                    (* handleKeyDown(event) *)

Definition Handler := Event -> Event * list Effect.

(** [callback?.(args)] *)
Definition call_if (supplied : bool) (fx : Effect) : list Effect :=
  if supplied then [fx] else [].

Definition handleItemClick (props : HistoryItemProps) : Handler :=
  fun e =>
    if selectionMode props then
      let e := preventDefault e in
      let e := stopPropagation e in
      (e, call_if (onToggleSelection props) (ToggleSelection (id (item props))))
    else (e, []).

Definition handleCheckboxChange (props : HistoryItemProps) : list Effect :=
  call_if (onToggleSelection props) (ToggleSelection (id (item props))).

Definition handleDeleteClick (props : HistoryItemProps) : Handler :=
  fun event =>
    let event := preventDefault event in
    let event := stopPropagation event in
    (event, call_if (onDelete props) Delete).

Definition exportClick (props : HistoryItemProps) : Handler :=
  fun event => (preventDefault event, [ExportChat (id (item props))]).

Definition duplicateClick (props : HistoryItemProps) : Handler :=
  fun event =>
    (preventDefault event, call_if (onDuplicate props) (Duplicate (id (item props)))).

Definition renameClick : Handler :=
  fun event => (preventDefault event, [ToggleEditMode]).

(** The elements of the rendered row that a click can land on. *)
Inductive Part :=
| Row | CheckboxWrapper | CheckboxBox
| EditForm | EditInput | SubmitButton
| Link | DescriptionSpan | ActionsOverlay | ActionsGroup
| ExportButton | DuplicateButton | RenameButton | DeleteButton.

Definition part_eqb (a b : Part) : bool :=
  match a, b with
  | Row, Row | CheckboxWrapper, CheckboxWrapper | CheckboxBox, CheckboxBox
  | EditForm, EditForm | EditInput, EditInput | SubmitButton, SubmitButton
  | Link, Link | DescriptionSpan, DescriptionSpan
  | ActionsOverlay, ActionsOverlay | ActionsGroup, ActionsGroup
  | ExportButton, ExportButton | DuplicateButton, DuplicateButton
  | RenameButton, RenameButton | DeleteButton, DeleteButton => true
  | _, _ => false
  end.

(** The events the row listens to. *)
Inductive EventType := Click | MouseDown | Submit | Change | Blur | KeyDown.

Definition event_eqb (a b : EventType) : bool :=
  match a, b with
  | Click, Click | MouseDown, MouseDown | Submit, Submit
  | Change, Change | Blur, Blur | KeyDown, KeyDown => true
  | _, _ => false
  end.

Inductive ButtonType := TypeButton | TypeSubmit.

Inductive Tag :=
| TagDiv | TagA (href : jsstring) | TagForm | TagInput
| TagButton (type : ButtonType) | TagSpan | TagCheckbox.

(** A rendered element: which part it is, its tag, its event handler
    props ([onClick], [onMouseDown], [onSubmit], ...) and its children.
    [WithTooltip] adds no handler of these events and is not shown. *)
#[local] Unset Elimination Schemes.
Inductive Element :=
| Elem (part : Part) (tag : Tag) (handlers : list (EventType * Handler))
       (children : list Element).
#[local] Set Elimination Schemes.

(** [cond && <element/>] in a list of children *)
Definition when (cond : bool) (e : Element) : list Element :=
  if cond then [e] else [].

(** A handler that [useEditChatDescription] returns ([handleSubmit],
    [handleChange], [handleBlur], [handleKeyDown]): the call is recorded;
    what the hook does with the event is its own business. *)
Definition hook (call : Effect) : Handler := fun event => (event, [call]).

(** [ChatActionButton]: a [button type="button"] with the given [onClick]. *)
Definition ChatActionButton (part : Part) (onClick : Handler) : Element :=
  Elem part (TagButton TypeButton) [(Click, onClick)] [].

(** Modelled from the spec: the [Checkbox] widget of
    [~/components/ui/Checkbox] is not among the sources.  It is the
    selection checkbox of the row: a click on it reports the change
    through [onCheckedChange], and the click goes on bubbling. *)
Definition Checkbox (onCheckedChange : list Effect) : Element :=
  Elem CheckboxBox TagCheckbox [(Click, fun event => (event, onCheckedChange))] [].

(** The element tree [HistoryItem] returns; [editing] comes from the
    [useEditChatDescription] hook. *)
Definition render (props : HistoryItemProps) (editing : bool) : Element :=
  let rowClick :=
    if selectionMode props then [(Click, handleItemClick props)] else [] in
  Elem Row TagDiv rowClick
    (when (selectionMode props)
       (Elem CheckboxWrapper TagDiv [(Click, fun e => (stopPropagation e, []))]
          [Checkbox (handleCheckboxChange props)])
     ++
     [if editing then
        Elem EditForm TagForm [(Submit, hook HandleSubmit)]
          [Elem EditInput TagInput
             [(Change, hook HandleChange); (Blur, hook HandleBlur);
              (KeyDown, hook HandleKeyDown)] [];
           Elem SubmitButton (TagButton TypeSubmit)
             [(MouseDown, hook HandleSubmit)] []]
      else
        Elem Link (TagA (u "/chat/" ++ urlId (item props))) rowClick
          [Elem DescriptionSpan TagSpan [] [];
           Elem ActionsOverlay TagDiv []
             [Elem ActionsGroup TagDiv []
                ([ChatActionButton ExportButton (exportClick props)]
                 ++ when (onDuplicate props)
                      (ChatActionButton DuplicateButton (duplicateClick props))
                 ++ [ChatActionButton RenameButton renameClick;
                     ChatActionButton DeleteButton (handleDeleteClick props)])]]]).

(** *** Dispatching an event *)

(** The propagation path of an event whose target is [target]: the target
    first, the root last; [None] when the part is not rendered. *)
Fixpoint path_to (target : Part) (e : Element) : option (list Element) :=
  match e with
  | Elem part _ _ children =>
      if part_eqb part target then Some [e]
      else
        match
          (fix first_in (cs : list Element) : option (list Element) :=
             match cs with
             | [] => None
             | c :: cs' =>
                 match path_to target c with
                 | Some p => Some p
                 | None => first_in cs'
                 end
             end) children
        with
        | Some p => Some (p ++ [e])
        | None => None
        end
  end.

(** The handler an element has for an event, if any. *)
Fixpoint handler_for (type : EventType) (handlers : list (EventType * Handler))
  : option Handler :=
  match handlers with
  | [] => None
  | (t, h) :: rest => if event_eqb t type then Some h else handler_for type rest
  end.

(** Bubbling: each element's handler for the event in turn, until one of
    them has stopped the propagation. *)
Fixpoint bubble (type : EventType) (path : list Element) (ev : Event)
  : Event * list Effect :=
  match path with
  | [] => (ev, [])
  | Elem _ _ handlers _ :: rest =>
      let (ev1, fx1) :=
        match handler_for type handlers with
        | Some h => h ev
        | None => (ev, [])
        end in
      if propagationStopped ev1 then (ev1, fx1)
      else let (ev2, fx2) := bubble type rest ev1 in (ev2, fx1 ++ fx2)
  end.


(** The innermost anchor on the path, whose activation is the default
    action of the click. *)
Fixpoint enclosing_href (path : list Element) : option jsstring :=
  match path with
  | [] => None
  | Elem _ (TagA href) _ _ :: _ => Some href
  | _ :: rest => enclosing_href rest
  end.

(** Submitting the nearest form on the path: a submit event is dispatched
    on the form and bubbles from there.  Whether the form is then sent is
    decided by the hook's [handleSubmit] and not followed further. *)
Fixpoint submit_form (path : list Element) : list Effect :=
  match path with
  | [] => []
  | Elem _ TagForm _ _ :: _ => snd (bubble Submit path fresh_event)
  | _ :: rest => submit_form rest
  end.

(** The default action of a click, unless prevented: a submit button
    submits its form, anything inside an anchor follows the link. *)
Definition default_action (path : list Element) (ev : Event) : list Effect :=
  if defaultPrevented ev then []
  else match path with
       | Elem _ (TagButton TypeSubmit) _ _ :: ancestors => submit_form ancestors
       | _ =>
           match enclosing_href path with
           | Some href => [Navigate href]
           | None => []
           end
       end.

(** A click on [target]: the effects of the [onClick] handlers in
    bubbling order, then the default action. *)
Definition click (tree : Element) (target : Part) : option (list Effect) :=
  match path_to target tree with
  | None => None
  | Some path =>
      let (ev, fx) := bubble Click path fresh_event in
      Some (fx ++ default_action path ev)
  end.

Definition is_toggle (fx : Effect) : bool :=
  match fx with
  | ToggleSelection _ => true
  | _ => false
  end.

Definition is_navigate (fx : Effect) : bool :=
  match fx with
  | Navigate _ => true
  | _ => false
  end.

(** How often the toggle-selection callback ran. *)
Definition toggle_calls (fx : list Effect) : nat :=
  List.length (filter is_toggle fx).

Definition navigated (fx : list Effect) : bool := existsb is_navigate fx.

End HistoryItem.

Import Markdown.

(* ===================================================================== *)
(** ** Vocabulary of the statements *)
(* ===================================================================== *)

Module Views.

(** A line: a string without a line feed. *)
Definition no_lf (l : jsstring) : Prop := ~ In LF l.

(** The transform seen on the lines: with [m] the first line that holds
    the marker, the line before it and the line after it are blanked when
    they are fences. *)
Definition blank_if (re : jsstring -> bool) (l : jsstring) : jsstring :=
  if re (trim l) then [] else l.

Definition blank_first (re : jsstring -> bool) (ls : list jsstring) : list jsstring :=
  match ls with
  | [] => []
  | l :: rest => blank_if re l :: rest
  end.

Definition blank_last (re : jsstring -> bool) (ls : list jsstring) : list jsstring :=
  rev (blank_first re (rev ls)).

Definition strip_lines (pre : list jsstring) (m : jsstring) (post : list jsstring)
  : list jsstring :=
  blank_last is_open_fence pre ++ m :: blank_first is_close_fence post.

Definition unmarked (l : jsstring) : Prop := includes l ARTIFACT_MARKER = false.

(** A fenced code block as markdown (CommonMark) has it, for the words
    "opening code fence" and "closing fence" of the specification.  A
    fence is at most three spaces of indentation and then a run of at least
    three backticks or of at least three tildes. *)
Fixpoint span (p : code_unit -> bool) (s : jsstring) : jsstring * jsstring :=
  match s with
  | [] => ([], [])
  | c :: s' =>
      if p c then let (run, rest) := span p s' in (c :: run, rest)
      else ([], s)
  end.

Definition TILDE : code_unit := 126%N.

(** The fence character of a line, the length of its run, and what
    follows the run. *)
Definition fence_of (l : jsstring) : option (code_unit * nat * jsstring) :=
  let (indent, body) := span (N.eqb 32) l in
  if 3 <? List.length indent then None
  else
    match body with
    | [] => None
    | c :: _ =>
        if N.eqb c BACKTICK || N.eqb c TILDE then
          let (run, rest) := span (N.eqb c) body in
          if 3 <=? List.length run then Some (c, List.length run, rest) else None
        else None
    end.

(** An opening fence: a fence followed by an info string, which holds no
    backtick when the fence is made of backticks. *)
Definition markdown_open_fence (l : jsstring) : bool :=
  match fence_of l with
  | Some (c, _, info) => negb (N.eqb c BACKTICK && existsb (N.eqb BACKTICK) info)
  | None => false
  end.

(** A closing fence for [open]: a fence of the same character, at least
    as long, followed by spaces or tabs only. *)
Definition markdown_closes (open close : jsstring) : bool :=
  match fence_of open, fence_of close with
  | Some (c, n, _), Some (c', n', rest) =>
      N.eqb c c' && (n <=? n')
      && forallb (fun x => N.eqb x 32 || N.eqb x 9) rest
  | _, _ => false
  end.

(** The first child of a [pre] node that [components.pre] hands on
    untouched: a text, a comment, an element other than [code], or a
    [code] element whose first child is not a text. *)
Definition passes_through (c : HastNode) : Prop :=
  match c with
  | HText _ | HComment _ => True
  | HElement tagName _ children =>
      tagName <> u "code" \/
      exists x rest, children = x :: rest /\ forall v, x <> HText v
  end.

(** The destructuring [const [firstChild] = node?.children ?? []]. *)
Definition firstChild {ReactNode RestProps : Type}
           (props : PreProps ReactNode RestProps) : option HastNode :=
  hd_error (children_or_empty (pre_node props)).

(** [<pre {...rest}>{children}</pre>] *)
Definition generic_pre {ReactNode RestProps : Type}
           (props : PreProps ReactNode RestProps)
  : Result (PreOutput ReactNode RestProps) :=
  Return (PreElement (pre_rest props) (pre_children props)).

(** The messages handed to [append], in order. *)
Fixpoint appended_messages (fx : list Markdown.Effect) : list Message :=
  match fx with
  | [] => []
  | Append m :: fx' => m :: appended_messages fx'
  | _ :: fx' => appended_messages fx'
  end.

End Views.

Import Views.

Import HistoryItem.

Unset Implicit Arguments.

(* ===================================================================== *)
(** ** Facts about the string operations *)
(* ===================================================================== *)

Section StringFacts.

Lemma string_eqb_eq (a b : jsstring) : string_eqb a b = true <-> a = b.
Proof.
  revert b; induction a as [|x a IH]; intros [|y b]; simpl; split;
    try congruence; try reflexivity.
  - intros H. apply andb_true_iff in H as [Hx Hab].
    apply N.eqb_eq in Hx. apply IH in Hab. congruence.
  - intros H. injection H as -> ->. rewrite N.eqb_refl. simpl. now apply IH.
Qed.

Lemma starts_with_spec (p s : jsstring) :
  starts_with p s = true <-> exists r, s = p ++ r.
Proof.
  revert s; induction p as [|x p IH]; intros s.
  - simpl. split; [intros _; now exists s | reflexivity].
  - destruct s as [|y s]; simpl.
    + split; [discriminate | intros [r Hr]; discriminate].
    + rewrite andb_true_iff, N.eqb_eq, IH. split.
      * intros [-> [r ->]]. now exists r.
      * intros [r Hr]. injection Hr as -> ->. split; [reflexivity | now exists r].
Qed.

Lemma includes_unfold (s m : jsstring) :
  includes s m =
  starts_with m s || match s with [] => false | _ :: s' => includes s' m end.
Proof. destruct s; reflexivity. Qed.

(** [includes] is the substring test. *)
Lemma includes_spec (s m : jsstring) :
  includes s m = true <-> exists l r, s = l ++ m ++ r.
Proof.
  split.
  - induction s as [|c s IH]; rewrite includes_unfold; intros H;
      apply orb_true_iff in H as [H|H]; try discriminate.
    + apply starts_with_spec in H as [r ->]. now exists [], r.
    + apply starts_with_spec in H as [r ->]. now exists [], r.
    + destruct (IH H) as (l & r & ->). now exists (c :: l), r.
  - intros (l & r & ->). induction l as [|c l IH].
    + rewrite includes_unfold. simpl app.
      replace (starts_with m (m ++ r)) with true; [reflexivity|].
      symmetry. apply starts_with_spec. now exists r.
    + simpl. rewrite IH. apply orb_true_r.
Qed.

Lemma includes_nil_false (m : jsstring) : m <> [] -> includes [] m = false.
Proof. destruct m; [congruence | reflexivity]. Qed.

Lemma split_lines_nonempty (s : jsstring) : split_lines s <> [].
Proof.
  induction s as [|c s IH]; simpl; [discriminate|].
  destruct (N.eqb c LF); [discriminate|].
  destruct (split_lines s); discriminate.
Qed.

Lemma split_lines_no_lf (s : jsstring) : Forall no_lf (split_lines s).
Proof.
  induction s as [|c s IH]; simpl.
  - constructor; [intros [] | constructor].
  - destruct (N.eqb c LF) eqn:E.
    + constructor; [intros [] | exact IH].
    + destruct (split_lines s) as [|l ls].
      * constructor; [|constructor]. intros [H|[]].
        apply N.eqb_neq in E. congruence.
      * inversion IH as [|? ? Hl Hls]; subst. constructor; [|exact Hls].
        intros [H|H]; [apply N.eqb_neq in E; congruence | contradiction].
Qed.

Lemma join_lines_cons (l x : jsstring) (ls : list jsstring) :
  join_lines (l :: x :: ls) = l ++ LF :: join_lines (x :: ls).
Proof. reflexivity. Qed.

Lemma join_split (s : jsstring) : join_lines (split_lines s) = s.
Proof.
  induction s as [|c s IH]; simpl; [reflexivity|].
  pose proof (split_lines_nonempty s) as Hne. revert IH Hne.
  destruct (split_lines s) as [|x ls]; intros IH Hne; [congruence|].
  destruct (N.eqb c LF) eqn:E.
  - apply N.eqb_eq in E. subst c.
    rewrite join_lines_cons, IH. reflexivity.
  - destruct ls as [|y ls].
    + simpl in *. congruence.
    + rewrite join_lines_cons in *. rewrite <- IH. reflexivity.
Qed.

Lemma split_single (l : jsstring) : no_lf l -> split_lines l = [l].
Proof.
  induction l as [|c l IH]; intros H; simpl; [reflexivity|].
  destruct (N.eqb c LF) eqn:E.
  - apply N.eqb_eq in E. exfalso. apply H. now left.
  - rewrite IH; [reflexivity|]. intros Hin. apply H. now right.
Qed.

Lemma split_app_lf (l s : jsstring) :
  no_lf l -> split_lines (l ++ LF :: s) = l :: split_lines s.
Proof.
  induction l as [|c l IH]; intros H; simpl.
  - reflexivity.
  - destruct (N.eqb c LF) eqn:E.
    + apply N.eqb_eq in E. exfalso. apply H. now left.
    + rewrite IH; [reflexivity|]. intros Hin. apply H. now right.
Qed.

(** Splitting undoes joining, for lines that hold no line feed. *)
Lemma split_join (ls : list jsstring) :
  ls <> [] -> Forall no_lf ls -> split_lines (join_lines ls) = ls.
Proof.
  induction ls as [|l ls IH]; intros Hne Hall; [congruence|].
  inversion Hall as [|? ? Hl Hls]; subst.
  destruct ls as [|x ls].
  - simpl. now apply split_single.
  - rewrite join_lines_cons, split_app_lf by assumption.
    rewrite IH; [reflexivity | discriminate | assumption].
Qed.

(** A line of a joined text is a substring of it. *)
Lemma join_lines_around (pre post : list jsstring) (m : jsstring) :
  exists a b, join_lines (pre ++ m :: post) = a ++ m ++ b.
Proof.
  induction pre as [|x pre IH].
  - destruct post as [|y post].
    + exists [], []. simpl. now rewrite app_nil_r.
    + exists [], (LF :: join_lines (y :: post)). reflexivity.
  - destruct IH as (a & b & E).
    exists (x ++ LF :: a), b.
    replace ((x :: pre) ++ m :: post) with (x :: (pre ++ m :: post)) by reflexivity.
    destruct (pre ++ m :: post) as [|y rest] eqn:Ey.
    + destruct pre; discriminate.
    + rewrite join_lines_cons, E, <- app_assoc. reflexivity.
Qed.

Lemma find_index_from_first (p : jsstring -> bool) (pre post : list jsstring)
      (m : jsstring) (i : Z) :
  Forall (fun l => p l = false) pre -> p m = true ->
  find_index_from p (pre ++ m :: post) i = (i + Z.of_nat (List.length pre))%Z.
Proof.
  intros Hpre Hm. revert i.
  induction Hpre as [|x pre Hx _ IH]; intros i; simpl.
  - rewrite Hm. lia.
  - rewrite Hx, IH. lia.
Qed.

Lemma find_index_from_found (p : jsstring -> bool) (ls : list jsstring) (i : Z) :
  (0 <= i)%Z -> find_index_from p ls i <> (-1)%Z ->
  exists pre m post,
    ls = pre ++ m :: post /\ Forall (fun l => p l = false) pre /\ p m = true.
Proof.
  revert i; induction ls as [|x ls IH]; intros i Hi H; simpl in H.
  - congruence.
  - destruct (p x) eqn:E.
    + exists [], x, ls. repeat split; [constructor | assumption].
    + destruct (IH (i + 1)%Z) as (pre & m & post & -> & Hpre & Hm); [lia | assumption |].
      exists (x :: pre), m, post. repeat split; [constructor|]; assumption.
Qed.

Lemma array_get_middle (pre post : list jsstring) (x : jsstring) :
  array_get (pre ++ x :: post) (Z.of_nat (List.length pre)) = Some x.
Proof.
  unfold array_get.
  destruct (Z.ltb_spec (Z.of_nat (List.length pre)) 0); [lia|].
  rewrite Nat2Z.id, nth_error_app2, Nat.sub_diag by lia. reflexivity.
Qed.

Lemma array_set_middle (pre post : list jsstring) (x v : jsstring) :
  array_set (pre ++ x :: post) (Z.of_nat (List.length pre)) v = pre ++ v :: post.
Proof.
  unfold array_set. rewrite Nat2Z.id.
  induction pre as [|y pre IH]; simpl; [reflexivity | now rewrite IH].
Qed.

End StringFacts.

(* ===================================================================== *)
(** ** stripCodeFenceFromArtifact on the lines of its input *)
(* ===================================================================== *)

Section StripFacts.

Example strip_demo :
  stripCodeFenceFromArtifact
    (u "intro" ++ LF :: u "```html" ++ LF :: u "<div class=__boltArtifact__>"
       ++ LF :: u " ``` " ++ LF :: u "tail")
  = u "intro" ++ LF :: LF :: u "<div class=__boltArtifact__>" ++ LF :: LF :: u "tail".
Proof. vm_compute. reflexivity. Qed.

(** Only the first marker line is looked at, and only fences of the two
    recognised shapes are blanked. *)
Example strip_unrecognised_fence :
  stripCodeFenceFromArtifact
    (u "```c++" ++ LF :: u "__boltArtifact__" ++ LF :: u "````")
  = u "```c++" ++ LF :: u "__boltArtifact__" ++ LF :: u "````".
Proof. vm_compute. reflexivity. Qed.

Example strip_marker_on_first_line :
  stripCodeFenceFromArtifact (u "__boltArtifact__" ++ LF :: u "```")
  = u "__boltArtifact__" ++ [LF].
Proof. vm_compute. reflexivity. Qed.

Lemma blank_last_snoc re (ls : list jsstring) (l : jsstring) :
  blank_last re (ls ++ [l]) = ls ++ [blank_if re l].
Proof.
  unfold blank_last. rewrite rev_unit. simpl. now rewrite rev_involutive.
Qed.

Lemma blank_last_length re (ls : list jsstring) :
  List.length (blank_last re ls) = List.length ls.
Proof.
  destruct ls as [|x ls] using rev_ind; [reflexivity|].
  rewrite blank_last_snoc, !length_app. reflexivity.
Qed.

Lemma blank_first_length re (ls : list jsstring) :
  List.length (blank_first re ls) = List.length ls.
Proof. destruct ls; reflexivity. Qed.

Lemma trim_nil : trim [] = [].
Proof. reflexivity. Qed.

Lemma blank_if_idem re (l : jsstring) : blank_if re (blank_if re l) = blank_if re l.
Proof.
  unfold blank_if. destruct (re (trim l)) eqn:E; [|now rewrite E].
  now destruct (re (trim [])).
Qed.

Lemma blank_first_idem re (ls : list jsstring) :
  blank_first re (blank_first re ls) = blank_first re ls.
Proof. destruct ls; simpl; [reflexivity | now rewrite blank_if_idem]. Qed.

Lemma blank_last_idem re (ls : list jsstring) :
  blank_last re (blank_last re ls) = blank_last re ls.
Proof.
  unfold blank_last. now rewrite rev_involutive, blank_first_idem.
Qed.

Lemma blank_if_unmarked re (l : jsstring) : unmarked l -> unmarked (blank_if re l).
Proof. unfold blank_if. destruct (re (trim l)); [reflexivity | trivial]. Qed.

Lemma blank_if_no_lf re (l : jsstring) : no_lf l -> no_lf (blank_if re l).
Proof. unfold blank_if. destruct (re (trim l)); [intros _ [] | trivial]. Qed.

Lemma blank_first_Forall (P : jsstring -> Prop) re (ls : list jsstring) :
  (forall l, P l -> P (blank_if re l)) -> Forall P ls -> Forall P (blank_first re ls).
Proof.
  intros HP H. destruct H; simpl; constructor; auto.
Qed.

Lemma blank_last_Forall (P : jsstring -> Prop) re (ls : list jsstring) :
  (forall l, P l -> P (blank_if re l)) -> Forall P ls -> Forall P (blank_last re ls).
Proof.
  intros HP H. unfold blank_last.
  apply Forall_rev, blank_first_Forall; [assumption | now apply Forall_rev].
Qed.

(** The assignment before the marker line. *)
Lemma blank_before (pre post : list jsstring) (m : jsstring) :
  let k := Z.of_nat (List.length pre) in
  (if (0 <? k)%Z && line_matches is_open_fence (pre ++ m :: post) (k - 1)%Z
   then array_set (pre ++ m :: post) (k - 1)%Z []
   else pre ++ m :: post)
  = blank_last is_open_fence pre ++ m :: post.
Proof.
  destruct pre as [|l pre] using rev_ind; [reflexivity|]. clear IHpre.
  cbv zeta. rewrite blank_last_snoc, length_app, <- !app_assoc. simpl app.
  replace (Z.of_nat (List.length pre + List.length [l]) - 1)%Z
    with (Z.of_nat (List.length pre)) by (simpl; lia).
  replace (0 <? Z.of_nat (List.length pre + List.length [l]))%Z with true
    by (symmetry; apply Z.ltb_lt; simpl; lia).
  unfold line_matches. rewrite array_get_middle, array_set_middle.
  unfold blank_if. now destruct (is_open_fence (trim l)).
Qed.

(** The assignment after the marker line. *)
Lemma blank_after (pre post : list jsstring) (m : jsstring) :
  let k := Z.of_nat (List.length pre) in
  let lines := pre ++ m :: post in
  (if (k <? Z.of_nat (List.length lines) - 1)%Z
      && line_matches is_close_fence lines (k + 1)%Z
   then array_set lines (k + 1)%Z []
   else lines)
  = pre ++ m :: blank_first is_close_fence post.
Proof.
  cbv zeta. destruct post as [|l post].
  - replace (Z.of_nat (List.length pre) <? Z.of_nat (List.length (pre ++ [m])) - 1)%Z
      with false; [reflexivity|].
    symmetry. apply Z.ltb_ge. rewrite length_app. simpl. lia.
  - replace (Z.of_nat (List.length pre) <?
             Z.of_nat (List.length (pre ++ m :: l :: post)) - 1)%Z with true
      by (symmetry; apply Z.ltb_lt; rewrite length_app; simpl; lia).
    replace (pre ++ m :: l :: post) with ((pre ++ [m]) ++ l :: post)
      by (now rewrite <- app_assoc).
    replace (Z.of_nat (List.length pre) + 1)%Z
      with (Z.of_nat (List.length (pre ++ [m])))
      by (rewrite length_app; simpl; lia).
    unfold line_matches. rewrite array_get_middle, array_set_middle.
    simpl blank_first. unfold blank_if.
    destruct (is_close_fence (trim l)); simpl; now rewrite <- app_assoc.
Qed.

Lemma marker_line_in_content (content : jsstring) (pre post : list jsstring)
      (m : jsstring) :
  split_lines content = pre ++ m :: post ->
  includes m ARTIFACT_MARKER = true ->
  includes content ARTIFACT_MARKER = true.
Proof.
  intros Hs Hm. rewrite <- (join_split content), Hs.
  destruct (join_lines_around pre post m) as (a & b & ->).
  apply includes_spec in Hm as (l & r & ->). apply includes_spec.
  exists (a ++ l), (r ++ b). now rewrite <- !app_assoc.
Qed.

(** What the transform returns, given the first marker line. *)
Lemma strip_on_lines (content : jsstring) (pre post : list jsstring) (m : jsstring) :
  split_lines content = pre ++ m :: post ->
  Forall unmarked pre ->
  includes m ARTIFACT_MARKER = true ->
  stripCodeFenceFromArtifact content = join_lines (strip_lines pre m post).
Proof.
  intros Hs Hpre Hm.
  pose proof (marker_line_in_content content pre post m Hs Hm) as Hinc.
  assert (G : match content with [] => true | _ :: _ => false end
              || negb (includes content ARTIFACT_MARKER) = false).
  { rewrite Hinc. destruct content; [discriminate Hinc | reflexivity]. }
  unfold stripCodeFenceFromArtifact. rewrite G, Hs. cbv zeta.
  unfold find_index. rewrite find_index_from_first by assumption.
  rewrite Z.add_0_l.
  destruct (Z.eqb_spec (Z.of_nat (List.length pre)) (-1)) as [E|_]; [lia|].
  rewrite (blank_before pre post m).
  rewrite <- (blank_last_length is_open_fence pre).
  rewrite (blank_after (blank_last is_open_fence pre) post m).
  reflexivity.
Qed.

(** The two outcomes of the transform. *)
Lemma strip_cases (content : jsstring) :
  stripCodeFenceFromArtifact content = content \/
  exists pre m post,
    split_lines content = pre ++ m :: post /\ Forall unmarked pre /\
    includes m ARTIFACT_MARKER = true /\
    stripCodeFenceFromArtifact content = join_lines (strip_lines pre m post).
Proof.
  destruct (find_index (fun line => includes line ARTIFACT_MARKER) (split_lines content)
            =? -1)%Z eqn:E.
  - left. unfold stripCodeFenceFromArtifact. cbv zeta. rewrite E.
    now destruct (_ || _).
  - right. apply Z.eqb_neq in E.
    apply find_index_from_found in E as (pre & m & post & Hs & Hpre & Hm); [|lia].
    exists pre, m, post. repeat split; try assumption.
    now apply strip_on_lines.
Qed.

End StripFacts.

(** C5. A markdown string that does not contain [__boltArtifact__] as a
    substring is returned unchanged by [stripCodeFenceFromArtifact]; the
    transform is therefore idempotent on such a string. *)
Theorem strip_without_marker_unchanged (content : jsstring) :
  (forall l r, content <> l ++ ARTIFACT_MARKER ++ r) ->
  stripCodeFenceFromArtifact content = content /\
  stripCodeFenceFromArtifact (stripCodeFenceFromArtifact content)
  = stripCodeFenceFromArtifact content.
Proof.
  intros H.
  assert (E : stripCodeFenceFromArtifact content = content).
  { unfold stripCodeFenceFromArtifact.
    destruct (includes content ARTIFACT_MARKER) eqn:Hinc.
    - apply includes_spec in Hinc as (l & r & Hlr). now destruct (H l r).
    - now rewrite orb_true_r. }
  now rewrite !E.
Qed.

Lemma strip_without_marker_unchanged_witness :
  let content := u "# Title" ++ LF :: u "```js" ++ LF :: u "let x;" ++ LF :: u "```" in
  stripCodeFenceFromArtifact content = content /\
  stripCodeFenceFromArtifact (stripCodeFenceFromArtifact content)
  = stripCodeFenceFromArtifact content.
Proof.
  apply strip_without_marker_unchanged.
  intros l r H.
  assert (Hinc : includes (l ++ ARTIFACT_MARKER ++ r) ARTIFACT_MARKER = true)
    by (apply includes_spec; eauto).
  rewrite <- H in Hinc. vm_compute in Hinc. discriminate Hinc.
Defined.

(** Both neighbours of the first marker line pass the tests of the
    transform: both are blanked. *)
Lemma strip_blanks_both_fences
        (content : jsstring) (pre post : list jsstring) (open m close : jsstring) :
  split_lines content = pre ++ open :: m :: close :: post ->
  Forall unmarked pre -> unmarked open ->
  includes m ARTIFACT_MARKER = true ->
  is_open_fence (trim open) = true ->
  is_close_fence (trim close) = true ->
  stripCodeFenceFromArtifact content = join_lines (pre ++ [] :: m :: [] :: post) /\
  split_lines (stripCodeFenceFromArtifact content) = pre ++ [] :: m :: [] :: post /\
  List.length (split_lines (stripCodeFenceFromArtifact content))
  = List.length (split_lines content).
Proof.
  intros Hs Hpre Hopen Hm Ho Hc.
  assert (E : stripCodeFenceFromArtifact content
              = join_lines (pre ++ [] :: m :: [] :: post)).
  { rewrite (strip_on_lines content (pre ++ [open]) (close :: post) m).
    - unfold strip_lines. rewrite blank_last_snoc. simpl blank_first.
      unfold blank_if. rewrite Ho, Hc, <- app_assoc. reflexivity.
    - now rewrite <- app_assoc.
    - apply Forall_app. split; [assumption | now constructor].
    - assumption. }
  pose proof (split_lines_no_lf content) as Hlf. rewrite Hs in Hlf.
  apply Forall_app in Hlf as [Hlf1 Hlf2].
  inversion Hlf2 as [|? ? _ Hlf3]; subst.
  inversion Hlf3 as [|? ? Hlm Hlf4]; subst.
  inversion Hlf4 as [|? ? _ Hlf5]; subst.
  assert (S : split_lines (join_lines (pre ++ [] :: m :: [] :: post))
              = pre ++ [] :: m :: [] :: post).
  { apply split_join; [now destruct pre|].
    apply Forall_app. split; [assumption|].
    repeat constructor; try assumption; intros []. }
  rewrite E, S, Hs. repeat split. rewrite !length_app. reflexivity.
Qed.

(** C9. [stripCodeFenceFromArtifact] is idempotent on every string, with
    or without the artifact marker. *)
Theorem strip_idempotent (content : jsstring) :
  stripCodeFenceFromArtifact (stripCodeFenceFromArtifact content)
  = stripCodeFenceFromArtifact content.
Proof.
  destruct (strip_cases content) as [E | (pre & m & post & Hs & Hpre & Hm & E)].
  - now rewrite !E.
  - rewrite E.
    pose proof (split_lines_no_lf content) as Hlf. rewrite Hs in Hlf.
    apply Forall_app in Hlf as [Hlf1 Hlf2].
    inversion Hlf2 as [|? ? Hlm Hlf3]; subst.
    assert (S : split_lines (join_lines (strip_lines pre m post))
                = blank_last is_open_fence pre ++ m :: blank_first is_close_fence post).
    { apply split_join.
      - unfold strip_lines. now destruct (blank_last is_open_fence pre).
      - unfold strip_lines. apply Forall_app. split.
        + apply blank_last_Forall; [apply blank_if_no_lf | assumption].
        + constructor; [assumption|].
          apply blank_first_Forall; [apply blank_if_no_lf | assumption]. }
    rewrite (strip_on_lines _ _ _ _ S).
    + unfold strip_lines. now rewrite blank_last_idem, blank_first_idem.
    + apply blank_last_Forall; [apply blank_if_unmarked | assumption].
    + assumption.
Qed.

(* ===================================================================== *)
(** ** Which fences stripCodeFenceFromArtifact recognises *)
(* ===================================================================== *)

Section FenceFacts.

Lemma word_not_white_space (c : code_unit) :
  is_word c = true -> is_white_space c = false.
Proof.
  intros H. apply not_true_is_false. intros W.
  unfold is_word in H. unfold is_white_space in W.
  repeat rewrite ?orb_true_iff, ?andb_true_iff, ?N.eqb_eq, ?N.leb_le in H.
  repeat rewrite ?orb_true_iff, ?andb_true_iff, ?N.eqb_eq, ?N.leb_le in W.
  lia.
Qed.

Lemma trim_start_white (ws s : jsstring) :
  forallb is_white_space ws = true -> trim_start (ws ++ s) = trim_start s.
Proof.
  induction ws as [|c ws IH]; simpl; [reflexivity|].
  intros H. apply andb_true_iff in H as [Hc Hws]. now rewrite Hc, IH.
Qed.

Lemma trim_start_keeps (c : code_unit) (s : jsstring) :
  is_white_space c = false -> trim_start (c :: s) = c :: s.
Proof. intros H. simpl. now rewrite H. Qed.

Lemma forallb_rev (p : code_unit -> bool) (s : jsstring) :
  forallb p s = true -> forallb p (rev s) = true.
Proof.
  rewrite !forallb_forall. intros H x Hx. apply H. now apply in_rev.
Qed.

(** Trimming a line made of white space, a core whose first and last
    characters are not white space, and white space, leaves the core. *)
Lemma trim_core (ws1 ws2 core : jsstring) (first last : code_unit) (middle : jsstring) :
  forallb is_white_space ws1 = true ->
  forallb is_white_space ws2 = true ->
  core = first :: middle -> rev core = last :: rev (removelast core) ->
  is_white_space first = false -> is_white_space last = false ->
  trim (ws1 ++ core ++ ws2) = core.
Proof.
  intros H1 H2 Hfirst Hlast Wf Wl. unfold trim, trim_end.
  rewrite (trim_start_white ws1 _ H1).
  rewrite Hfirst at 1. simpl app. rewrite (trim_start_keeps _ _ Wf).
  change (first :: middle ++ ws2) with ((first :: middle) ++ ws2).
  rewrite <- Hfirst, rev_app_distr.
  rewrite (trim_start_white (rev ws2) _ (forallb_rev _ _ H2)).
  rewrite Hlast, (trim_start_keeps _ _ Wl), <- Hlast.
  apply rev_involutive.
Qed.

Lemma rev_last_split (s : jsstring) (d : code_unit) :
  s <> [] -> rev s = last s d :: rev (removelast s).
Proof.
  intros Hne. rewrite (app_removelast_last d Hne) at 1.
  now rewrite rev_unit.
Qed.

(** A line that is three backticks and word characters, surrounded by
    white space, trims to the fence the first test accepts. *)
Lemma open_fence_recognised (indent info trail : jsstring) :
  forallb is_white_space indent = true ->
  forallb is_white_space trail = true ->
  forallb is_word info = true ->
  is_open_fence (trim (indent ++ (u "```" ++ info) ++ trail)) = true.
Proof.
  intros Hi Ht Hw.
  assert (Hne : u "```" ++ info <> []) by discriminate.
  rewrite (trim_core indent trail (u "```" ++ info) BACKTICK
             (last (u "```" ++ info) BACKTICK) (u "``" ++ info) Hi Ht eq_refl
             (rev_last_split _ BACKTICK Hne) eq_refl).
  - simpl. exact Hw.
  - destruct info as [|c info] using rev_ind; [reflexivity|].
    replace (u "```" ++ info ++ [c]) with ((u "```" ++ info) ++ [c])
      by now rewrite <- app_assoc.
    rewrite last_last. apply word_not_white_space.
    rewrite forallb_app in Hw. apply andb_true_iff in Hw as [_ Hc].
    simpl in Hc. now rewrite andb_true_r in Hc.
Qed.

(** A line that is exactly three backticks, surrounded by white space,
    trims to the fence the second test accepts. *)
Lemma close_fence_recognised (indent trail : jsstring) :
  forallb is_white_space indent = true ->
  forallb is_white_space trail = true ->
  is_close_fence (trim (indent ++ u "```" ++ trail)) = true.
Proof.
  intros Hi Ht.
  now rewrite (trim_core indent trail (u "```") BACKTICK BACKTICK (u "``")
                 Hi Ht eq_refl eq_refl eq_refl eq_refl).
Qed.

End FenceFacts.

(** C4, as the specification states it, does not hold: an opening code
    fence of markdown whose info string is not made of word characters,
    as in [```c++], is left in place in front of the marker line. *)
Lemma strip_leaves_markdown_fence_counterexample :
  ~ (forall (content : jsstring) (pre post : list jsstring) (open m close : jsstring),
        split_lines content = pre ++ open :: m :: close :: post ->
        Forall unmarked pre -> unmarked open ->
        includes m ARTIFACT_MARKER = true ->
        markdown_open_fence open = true ->
        markdown_closes open close = true ->
        split_lines (stripCodeFenceFromArtifact content)
        = pre ++ [] :: m :: [] :: post).
Proof.
  intros H.
  specialize (H (u "```c++" ++ LF :: u "<div class=__boltArtifact__>" ++ LF :: u "```")
                [] [] (u "```c++") (u "<div class=__boltArtifact__>") (u "```")).
  assert (E : split_lines
                (stripCodeFenceFromArtifact
                   (u "```c++" ++ LF :: u "<div class=__boltArtifact__>"
                      ++ LF :: u "```"))
              = [u "```c++"; u "<div class=__boltArtifact__>"; []])
    by (vm_compute; reflexivity).
  rewrite E in H.
  assert (C : [u "```c++"; u "<div class=__boltArtifact__>"; []]
              = [[]; u "<div class=__boltArtifact__>"; []]).
  { apply H; try (vm_compute; reflexivity). constructor. }
  discriminate C.
Qed.

(** C4, amended. When the first line that holds the artifact marker is
    immediately preceded by a line that is, between optional white space,
    three backticks followed by word characters ([A-Za-z0-9_]) only, and
    immediately followed by a line that is, between optional white space,
    exactly three backticks, [stripCodeFenceFromArtifact] replaces both
    lines with empty lines, leaves every other line as it was, and the
    output has as many lines as the input. *)
Theorem strip_blanks_recognised_fences
        (content : jsstring) (pre post : list jsstring) (m : jsstring)
        (indent1 info trail1 indent2 trail2 : jsstring) :
  split_lines content
  = pre ++ (indent1 ++ (u "```" ++ info) ++ trail1) :: m
        :: (indent2 ++ u "```" ++ trail2) :: post ->
  Forall unmarked pre ->
  unmarked (indent1 ++ (u "```" ++ info) ++ trail1) ->
  includes m ARTIFACT_MARKER = true ->
  forallb is_white_space (indent1 ++ trail1 ++ indent2 ++ trail2) = true ->
  forallb is_word info = true ->
  stripCodeFenceFromArtifact content = join_lines (pre ++ [] :: m :: [] :: post) /\
  split_lines (stripCodeFenceFromArtifact content) = pre ++ [] :: m :: [] :: post /\
  List.length (split_lines (stripCodeFenceFromArtifact content))
  = List.length (split_lines content).
Proof.
  intros Hs Hpre Hopen Hm Hws Hw.
  rewrite !forallb_app in Hws.
  apply andb_true_iff in Hws as [Hi1 Hws].
  apply andb_true_iff in Hws as [Ht1 Hws].
  apply andb_true_iff in Hws as [Hi2 Ht2].
  apply (strip_blanks_both_fences content pre post _ m _ Hs Hpre Hopen Hm).
  - now apply open_fence_recognised.
  - now apply close_fence_recognised.
Qed.

Lemma strip_blanks_recognised_fences_witness :
  let content :=
    u "intro" ++ LF :: u "```html" ++ LF :: u "<div class=__boltArtifact__>"
      ++ LF :: u " ``` " ++ LF :: u "tail" in
  let out := [u "intro"; []; u "<div class=__boltArtifact__>"; []; u "tail"] in
  stripCodeFenceFromArtifact content = join_lines out /\
  split_lines (stripCodeFenceFromArtifact content) = out /\
  List.length (split_lines (stripCodeFenceFromArtifact content))
  = List.length (split_lines content).
Proof.
  apply (strip_blanks_recognised_fences _ [u "intro"] [u "tail"]
           (u "<div class=__boltArtifact__>") [] (u "html") [] (u " ") (u " ")).
  - vm_compute. reflexivity.
  - repeat constructor.
  - vm_compute. reflexivity.
  - vm_compute. reflexivity.
  - vm_compute. reflexivity.
  - vm_compute. reflexivity.
Defined.

(* ===================================================================== *)
(** ** components.pre *)
(* ===================================================================== *)

Section PreFacts.

Lemma language_exec_here (s w : jsstring) :
  language_match_here s = Some w -> language_exec s = Some w.
Proof.
  intros H.
  replace (language_exec s)
    with (match language_match_here s with
          | Some w' => Some w'
          | None => match s with [] => None | _ :: s' => language_exec s' end
          end) by (destruct s; reflexivity).
  now rewrite H.
Qed.

(** [language-<name>] at the very start of the class string gives
    [<name>], for a non-empty [name] of word characters. *)
Lemma language_of_prefixed (name : jsstring) :
  name <> [] -> forallb is_word name = true ->
  language_of (PString (u "language-" ++ name)) = name.
Proof.
  intros Hne Hw. unfold language_of.
  assert (T : take_word name = name).
  { clear Hne. induction name as [|c name IH]; [reflexivity|].
    simpl in *. apply andb_true_iff in Hw as [Hc Hw].
    now rewrite Hc, IH. }
  assert (E : language_match_here (u "language-" ++ name) = Some name).
  { unfold language_match_here.
    change (strip_prefix (u "language-") (u "language-" ++ name))
      with (strip_prefix [] name).
    simpl strip_prefix. cbv iota beta. rewrite T. destruct name; [congruence | reflexivity]. }
  replace (match to_string (PString (u "language-" ++ name)) with
           | [] => []
           | c :: s => c :: s
           end) with (u "language-" ++ name) by reflexivity.
  now rewrite (language_exec_here _ _ E).
Qed.

End PreFacts.

(** C7. In the language extraction of the pre-block renderer the class
    string [language-python] yields the language [python], and both the
    class string [language-] and an absent class property yield the
    default [plaintext]; the code block rendered for a [code] child with
    such a class carries that language. *)
Theorem pre_language_extraction :
  language_of (PString (u "language-python")) = u "python" /\
  language_of (PString (u "language-")) = u "plaintext" /\
  language_of PUndefined = u "plaintext" /\
  forall (ReactNode RestProps : Type) (children : ReactNode) (rest : RestProps)
         (code : jsstring),
    let render properties :=
      components_pre
        {| pre_children := children;
           pre_node := Some (HElement (u "pre") []
                               [HElement (u "code") properties [HText code]]);
           pre_rest := rest |} in
    render [(u "className", PString (u "language-python"))]
      = Return (CodeBlock code (u "python") []) /\
    render [(u "className", PString (u "language-"))]
      = Return (CodeBlock code (u "plaintext") []) /\
    render [] = Return (CodeBlock code (u "plaintext") []).
Proof.
  repeat split; vm_compute; reflexivity.
Qed.

(** C2. Contrary to the specification, rendering can throw: for a
    preformatted node whose first child is a [code]
    element with an empty children list, [components.pre] reads [type] of
    [firstChild.children[0]], which is [undefined], and throws a
    TypeError. *)
Theorem pre_throws_on_empty_code_element
        (ReactNode RestProps : Type) (children : ReactNode) (rest : RestProps)
        (preProperties codeProperties : Properties) (siblings : list HastNode) :
  components_pre
    {| pre_children := children;
       pre_node := Some (HElement (u "pre") preProperties
                           (HElement (u "code") codeProperties [] :: siblings));
       pre_rest := rest |}
  = Throw (TypeError (u "Cannot read properties of undefined (reading 'type')")).
Proof. reflexivity. Qed.

(** C6, as the specification states it, does not hold: a preformatted
    node with more than one child is not always passed through as a
    generic [pre]. *)
Lemma pre_passes_through_many_children_counterexample :
  ~ (forall props : PreProps unit unit,
       1 < List.length (children_or_empty (pre_node props)) ->
       components_pre props
       = Return (PreElement (pre_rest props) (pre_children props))).
Proof.
  intros H.
  specialize (H {| pre_children := tt;
                   pre_node := Some (HElement (u "pre") []
                                       [HElement (u "code") [] [HText (u "x")];
                                        HText (u "y")]);
                   pre_rest := tt |}).
  simpl in H. specialize (H (Nat.lt_succ_diag_r 1)).
  vm_compute in H. discriminate H.
Qed.

(** C6, amended. The pre-block renderer decides on the first child of the
    preformatted node alone, whatever children follow it: when the first
    child is a [code] element whose first child is a text, it renders the
    code-block component with that text, the language of the element's
    class and the element's other properties; when there is no first
    child, or the first child is a text, a comment, an element other than
    [code], or a [code] element whose first child is not a text, it passes
    the node through as a generic [pre]. *)
Theorem pre_decides_on_first_child
        (ReactNode RestProps : Type) (props : PreProps ReactNode RestProps)
        (first : option HastNode) :
  firstChild props = first ->
  (first = None -> components_pre props = generic_pre props) /\
  (forall properties value rest,
      first = Some (HElement (u "code") properties (HText value :: rest)) ->
      components_pre props
      = Return (CodeBlock value
                  (language_of (prop_get properties (u "className")))
                  (prop_remove properties (u "className")))) /\
  (forall c, first = Some c -> passes_through c ->
             components_pre props = generic_pre props).
Proof.
  unfold firstChild, components_pre, generic_pre.
  intros <-. destruct (children_or_empty (pre_node props)) as [|c more]; simpl.
  - repeat split; intros; (reflexivity || discriminate).
  - split; [discriminate|]. split.
    + intros properties value rest E. injection E as ->. reflexivity.
    + intros c' E Hc. injection E as <-.
      destruct c as [v|v|tagName properties children]; try reflexivity.
      destruct (string_eqb tagName (u "code")) eqn:Etag; [|reflexivity].
      apply string_eqb_eq in Etag. simpl in Hc.
      destruct Hc as [Hc | (x & rest & -> & Hx)]; [contradiction|].
      destruct x as [v|v|t p cs]; [now destruct (Hx v) | reflexivity | reflexivity].
Qed.

Lemma pre_decides_on_first_child_witness :
  let code := HElement (u "code") [(u "className", PList [u "language-ts"])]
                [HText (u "let x"); HComment (u "c")] in
  let props node := {| pre_children := tt; pre_node := node; pre_rest := tt |} in
  components_pre (props (Some (HElement (u "pre") [] [code; HText (u "tail")])))
  = Return (CodeBlock (u "let x") (u "ts") []) /\
  components_pre (props (Some (HElement (u "pre") [] [HText (u "plain"); code])))
  = Return (PreElement tt tt) /\
  components_pre (props None) = Return (PreElement tt tt).
Proof.
  intros code props. split; [|split].
  - destruct (pre_decides_on_first_child unit unit
                (props (Some (HElement (u "pre") [] [code; HText (u "tail")])))
                (Some code) eq_refl) as (_ & H & _).
    rewrite (H _ _ _ eq_refl). vm_compute. reflexivity.
  - destruct (pre_decides_on_first_child unit unit
                (props (Some (HElement (u "pre") [] [HText (u "plain"); code])))
                (Some (HText (u "plain"))) eq_refl) as (_ & _ & H).
    exact (H _ eq_refl I).
  - destruct (pre_decides_on_first_child unit unit (props None) None eq_refl)
      as (H & _).
    exact (H eq_refl).
Defined.

(* ===================================================================== *)
(** ** components.button *)
(* ===================================================================== *)

Section ButtonFacts.

Variable resolve_url : jsstring -> jsstring -> option jsstring.

Lemma string_eqb_neq (a b : jsstring) : a <> b -> string_eqb a b = false.
Proof.
  intros H. destruct (string_eqb a b) eqn:E; [|reflexivity].
  apply string_eqb_eq in E. contradiction.
Qed.

Lemma strict_eq_string_neq (v : PropValue) (s : jsstring) :
  v <> PString s -> strict_eq_string v s = false.
Proof.
  intros H. destruct v; try reflexivity. simpl.
  apply string_eqb_neq. congruence.
Qed.

(** A type other than the four known ones dispatches nothing. *)
Lemma unknown_type_no_dispatch (qa : QuickAction) (env : Env) :
  qa_type qa <> PString (u "file") -> qa_type qa <> PString (u "message") ->
  qa_type qa <> PString (u "implement") -> qa_type qa <> PString (u "link") ->
  Markdown.onClick resolve_url qa env = [].
Proof.
  intros Hf Hm Hi Hl. unfold Markdown.onClick.
  now rewrite !strict_eq_string_neq by assumption.
Qed.

(** The icon of a type that is neither a key of [iconClassMap] nor a
    property name of [Object.prototype] is the question icon. *)
Lemma unknown_type_question_icon (ps : Properties) :
  let qa := quick_action_of ps in
  let safeType := match qa_type qa with PString s => s | _ => [] end in
  ~ In safeType [u "file"; u "message"; u "implement"; u "link"] ->
  ~ In safeType object_prototype_keys ->
  qa_iconClass qa = VString (u "i-ph:question").
Proof.
  cbv zeta. unfold quick_action_of. cbv zeta. simpl qa_type. simpl qa_iconClass.
  set (type := js_or _ _).
  set (safeType := match type with PString s => s | _ => [] end).
  intros Hown Hproto. unfold object_get.
  assert (O : own_get iconClassMap safeType = None).
  { unfold iconClassMap, own_get.
    rewrite !string_eqb_neq; [reflexivity | | | |];
      intros E; apply Hown; rewrite <- E; simpl; tauto. }
  rewrite O.
  assert (P : existsb (string_eqb safeType) object_prototype_keys = false).
  { destruct (existsb _ _) eqn:E; [|reflexivity].
    apply existsb_exists in E as (k & Hk & Ek).
    apply string_eqb_eq in Ek. subst k. contradiction. }
  now rewrite P.
Qed.

(** The icon of a type that names a property of [Object.prototype] is what
    the prototype holds under that name. *)
Lemma inherited_type_icon (ps : Properties) (key : jsstring) :
  qa_type (quick_action_of ps) = PString key ->
  In key object_prototype_keys ->
  qa_iconClass (quick_action_of ps) = VInherited key.
Proof.
  unfold quick_action_of. cbv zeta. simpl qa_type. simpl qa_iconClass.
  intros -> Hin. simpl in Hin.
  repeat (destruct Hin as [<- | Hin]; [vm_compute; reflexivity|]).
  contradiction.
Qed.

Lemma app_neq_right (p s : jsstring) : p <> [] -> p ++ s <> s.
Proof.
  intros Hp E. apply (f_equal (@List.length _)) in E.
  rewrite length_app in E. destruct p; [congruence | simpl in E; lia].
Qed.

End ButtonFacts.

(** C8. Contrary to the specification, an unknown type does not always
    get the question icon: for a quick-action button whose type is
    [constructor], which is none of the four known types,
    [iconClassMap[safeType]] is the inherited [Object.prototype.constructor]
    and not nullish, so the icon class is not [i-ph:question]; the click
    handler still dispatches nothing. *)
Theorem quick_action_inherited_type_icon
        (ReactNode RestProps : Type) (children : ReactNode) (rest : RestProps)
        (resolve_url : jsstring -> jsstring -> option jsstring) (env : Env) :
  let props :=
    {| btn_node :=
         Some (HElement (u "button")
                 [(u "dataBoltQuickAction", PString (u "true"));
                  (u "dataType", PString (u "constructor"))] []);
       btn_children := children;
       btn_rest := rest |} in
  exists qa,
    components_button props = QuickActionButton qa children /\
    qa_type qa = PString (u "constructor") /\
    qa_iconClass qa = VInherited (u "constructor") /\
    qa_iconClass qa <> VString (u "i-ph:question") /\
    Markdown.onClick resolve_url qa env = [].
Proof.
  cbv zeta. eexists. split; [vm_compute; reflexivity|].
  repeat split; try reflexivity. discriminate.
Qed.

(** C10. A click on a quick-action button of type [message], with [append]
    supplied, or of type [implement], with [append] and [setChatMode]
    supplied, hands exactly one message to [append]; its role is [user]
    and its text is the [[Model: <model>]] line, a blank line, the
    [[Provider: <provider name>]] line, a blank line and then the message
    attribute, which is never the message attribute alone. *)
Theorem quick_action_appends_annotated_user_message
        (resolve_url : jsstring -> jsstring -> option jsstring)
        (qa : QuickAction) (env : Env) :
  append env = true ->
  qa_type qa = PString (u "message") \/
  qa_type qa = PString (u "implement") /\ setChatMode env = true ->
  let text :=
    u "[Model: " ++ opt_to_string (model env) ++ u "]" ++ [LF; LF]
    ++ u "[Provider: " ++ opt_to_string (option_map provider_name (provider env))
    ++ u "]" ++ [LF; LF] ++ to_string (qa_message qa) in
  (exists id,
      appended_messages (Markdown.onClick resolve_url qa env)
      = [{| msg_id := id; msg_content := [TextPart text]; msg_role := RoleUser |}])
  /\ text <> to_string (qa_message qa).
Proof.
  intros Happend Htype text. split.
  - unfold Markdown.onClick.
    destruct Htype as [-> | [-> Hmode]].
    + change (strict_eq_string (PString (u "message")) (u "file")) with false.
      change (strict_eq_string (PString (u "message")) (u "message")) with true.
      rewrite Happend. cbv iota. simpl andb. cbv iota.
      eexists. reflexivity.
    + change (strict_eq_string (PString (u "implement")) (u "file")) with false.
      change (strict_eq_string (PString (u "implement")) (u "message")) with false.
      change (strict_eq_string (PString (u "implement")) (u "implement")) with true.
      rewrite Happend, Hmode. simpl andb. cbv iota.
      eexists. reflexivity.
  - subst text.
    change (u "[Model: " ++ opt_to_string (model env) ++ u "]" ++ [LF; LF]
            ++ u "[Provider: "
            ++ opt_to_string (option_map provider_name (provider env))
            ++ u "]" ++ [LF; LF] ++ to_string (qa_message qa))
      with (u "[Model: " ++ (opt_to_string (model env) ++ u "]" ++ [LF; LF]
            ++ u "[Provider: "
            ++ opt_to_string (option_map provider_name (provider env))
            ++ u "]" ++ [LF; LF] ++ to_string (qa_message qa))).
    intros E. apply (f_equal (@List.length _)) in E.
    rewrite !length_app in E. simpl in E. lia.
Qed.

Lemma quick_action_appends_annotated_user_message_witness :
  let env := {| append := true; setChatMode := false; model := Some (u "gpt");
                provider := Some {| provider_name := u "OpenAI" |};
                now := 1700000000000%N; origin := u "http://localhost" |} in
  let qa := quick_action_of [(u "dataType", PString (u "message"));
                             (u "dataMessage", PString (u "Run it"))] in
  let text :=
    u "[Model: gpt]" ++ [LF; LF] ++ u "[Provider: OpenAI]" ++ [LF; LF] ++ u "Run it" in
  (exists id,
      appended_messages (Markdown.onClick (fun href _ => Some href) qa env)
      = [{| msg_id := id; msg_content := [TextPart text]; msg_role := RoleUser |}])
  /\ text <> u "Run it".
Proof.
  intros env qa text.
  apply (quick_action_appends_annotated_user_message
           (fun href _ => Some href) qa env).
  - reflexivity.
  - left. reflexivity.
Defined.

(* ===================================================================== *)
(** ** HistoryItem: clicks on the row and on the action buttons *)
(* ===================================================================== *)

(** Runs a click on a row whose props are taken apart. *)
Ltac run_click props :=
  destruct props as [it del dup sel isSel tog]; simpl in *; subst;
  repeat match goal with b : bool |- _ => destruct b end;
  try discriminate; reflexivity.

Section HistoryItemFacts.

(** No click on an action button follows the link. *)
Lemma action_click_never_navigates (props : HistoryItemProps) (target : Part)
      (fx : list Effect) :
  In target [ExportButton; DuplicateButton; RenameButton; DeleteButton] ->
  click (render props false) target = Some fx ->
  navigated fx = false.
Proof.
  intros Hin H. simpl in Hin.
  destruct props as [it del dup sel isSel tog].
  destruct Hin as [<- | [<- | [<- | [<- | []]]]];
    destruct del, dup, sel, tog; vm_compute in H;
    try discriminate H; injection H as <-; reflexivity.
Qed.

(** The delete button stops the propagation: its click reaches neither the
    link nor the row. *)
Lemma delete_click_stops (props : HistoryItemProps) :
  click (render props false) DeleteButton = Some (call_if (onDelete props) Delete).
Proof. run_click props. Qed.

(** Outside selection mode no handler toggles the selection. *)
Lemma no_toggle_outside_selection_mode (props : HistoryItemProps) (editing : bool)
      (target : Part) (fx : list Effect) :
  selectionMode props = false ->
  click (render props editing) target = Some fx ->
  toggle_calls fx = 0.
Proof.
  intros Hsel H. destruct props as [it del dup sel isSel tog].
  simpl in Hsel. subst sel.
  destruct editing, target, del, dup, tog; vm_compute in H;
    try discriminate H; injection H as <-; reflexivity.
Qed.

(** Outside selection mode a click on the padding of the row, which lies
    outside the link, does nothing. *)
Lemma row_padding_click_outside_selection_mode (props : HistoryItemProps)
      (editing : bool) :
  selectionMode props = false ->
  click (render props editing) Row = Some [].
Proof. intros H. destruct editing; run_click props. Qed.

End HistoryItemFacts.

(** C1. Contrary to the specification, in selection mode a click on an
    action button can toggle the selection: the click handlers of the
    export, rename and duplicate buttons call [preventDefault] only and
    leave the propagation running, so the click bubbles to the link, whose
    [handleItemClick] calls the toggle-selection callback; only
    [handleDeleteClick] stops the propagation. *)
Theorem action_click_toggles_selection_in_selection_mode
        (it : ChatHistoryItem) (del dup isSel : bool) :
  let props d :=
    {| item := it; onDelete := del; onDuplicate := d; selectionMode := true;
       isSelected := isSel; onToggleSelection := true |} in
  (propagationStopped (fst (exportClick (props dup) fresh_event)) = false /\
   propagationStopped (fst (duplicateClick (props dup) fresh_event)) = false /\
   propagationStopped (fst (renameClick fresh_event)) = false /\
   propagationStopped (fst (handleDeleteClick (props dup) fresh_event)) = true) /\
  click (render (props dup) false) ExportButton
  = Some [ExportChat (id it); ToggleSelection (id it)] /\
  click (render (props dup) false) RenameButton
  = Some [ToggleEditMode; ToggleSelection (id it)] /\
  click (render (props true) false) DuplicateButton
  = Some [Duplicate (id it); ToggleSelection (id it)] /\
  click (render (props dup) false) DeleteButton
  = Some (if del then [Delete] else []).
Proof.
  cbv zeta. destruct del, dup; repeat split; reflexivity.
Qed.




(* ===================================================================== *)
(** ** Further properties of stripCodeFenceFromArtifact *)
(* ===================================================================== *)

Section StripMore.

Lemma unmarked_nil : unmarked [].
Proof. reflexivity. Qed.

Lemma blank_if_cases re (l : jsstring) : blank_if re l = l \/ blank_if re l = [].
Proof. unfold blank_if. destruct (re (trim l)); auto. Qed.

Lemma kept_or_blank_refl (ls : list jsstring) :
  Forall2 (fun a b : jsstring => b = a \/ b = []) ls ls.
Proof. induction ls; constructor; auto. Qed.

Lemma blank_first_kept_or_blank re (ls : list jsstring) :
  Forall2 (fun a b : jsstring => b = a \/ b = []) ls (blank_first re ls).
Proof.
  destruct ls as [|l ls]; simpl; constructor.
  - apply blank_if_cases.
  - apply kept_or_blank_refl.
Qed.

Lemma blank_last_kept_or_blank re (ls : list jsstring) :
  Forall2 (fun a b : jsstring => b = a \/ b = []) ls (blank_last re ls).
Proof.
  destruct ls as [|l ls _] using rev_ind; [constructor|].
  rewrite blank_last_snoc. apply Forall2_app; [apply kept_or_blank_refl|].
  constructor; [apply blank_if_cases | constructor].
Qed.

Lemma strip_lines_kept_or_blank (pre post : list jsstring) (m : jsstring) :
  Forall2 (fun a b : jsstring => b = a \/ b = [])
          (pre ++ m :: post) (strip_lines pre m post).
Proof.
  unfold strip_lines. apply Forall2_app; [apply blank_last_kept_or_blank|].
  constructor; [now left | apply blank_first_kept_or_blank].
Qed.

(** The lines of the result, when the transform rewrites its input. *)
Lemma split_strip_lines (content : jsstring) (pre post : list jsstring) (m : jsstring) :
  split_lines content = pre ++ m :: post ->
  split_lines (join_lines (strip_lines pre m post)) = strip_lines pre m post.
Proof.
  intros Hs. pose proof (split_lines_no_lf content) as Hlf. rewrite Hs in Hlf.
  apply Forall_app in Hlf as [Hpre Hrest].
  inversion Hrest as [|? ? Hm Hpost]; subst.
  apply split_join; unfold strip_lines.
  - now destruct (blank_last is_open_fence pre).
  - apply Forall_app. split.
    + apply blank_last_Forall; [apply blank_if_no_lf | assumption].
    + constructor; [assumption|].
      apply blank_first_Forall; [apply blank_if_no_lf | assumption].
Qed.

(** Input and output line by line. *)
Lemma strip_line_view (content : jsstring) :
  Forall2 (fun a b : jsstring => b = a \/ b = [])
          (split_lines content)
          (split_lines (stripCodeFenceFromArtifact content)).
Proof.
  destruct (strip_cases content) as [E | (pre & m & post & Hs & _ & _ & E)].
  - rewrite E. apply kept_or_blank_refl.
  - rewrite E, (split_strip_lines content pre post m Hs), Hs.
    apply strip_lines_kept_or_blank.
Qed.

Lemma join_lines_length_le (ls ls' : list jsstring) :
  Forall2 (fun a b : jsstring => b = a \/ b = []) ls ls' ->
  List.length (join_lines ls') <= List.length (join_lines ls).
Proof.
  induction 1 as [|a b la lb Hab Hrest IH]; [apply Nat.le_refl|].
  assert (Hlen : List.length b <= List.length a)
    by (destruct Hab as [-> | ->]; simpl; lia).
  destruct Hrest as [|a' b' la' lb' _ _].
  - exact Hlen.
  - rewrite !join_lines_cons, !length_app. simpl List.length in *. lia.
Qed.

End StripMore.

(** X1. The transform keeps the number of lines of every input, and each
    output line is either the input line at the same position or empty:
    lines are blanked, never edited, added or dropped. *)
Theorem strip_lines_kept_or_blanked (content : jsstring) :
  List.length (split_lines (stripCodeFenceFromArtifact content))
  = List.length (split_lines content) /\
  Forall2 (fun before after : jsstring => after = before \/ after = [])
          (split_lines content)
          (split_lines (stripCodeFenceFromArtifact content)).
Proof.
  pose proof (strip_line_view content) as H. split; [|exact H].
  symmetry. exact (Forall2_length H).
Qed.

(** X2. The result is never longer than the input. *)
Theorem strip_never_longer (content : jsstring) :
  List.length (stripCodeFenceFromArtifact content) <= List.length content.
Proof.
  rewrite <- (join_split (stripCodeFenceFromArtifact content)).
  rewrite <- (join_split content) at 2.
  apply join_lines_length_le, strip_line_view.
Qed.

(** X3. The transform neither removes nor introduces the artifact marker:
    the result contains it exactly when the input does. *)
Theorem strip_keeps_marker (content : jsstring) :
  includes (stripCodeFenceFromArtifact content) ARTIFACT_MARKER
  = includes content ARTIFACT_MARKER.
Proof.
  destruct (strip_cases content) as [E | (pre & m & post & Hs & _ & Hm & E)].
  - now rewrite E.
  - rewrite (marker_line_in_content content pre post m Hs Hm), E.
    apply (marker_line_in_content _ (blank_last is_open_fence pre)
             (blank_first is_close_fence post) m); [|exact Hm].
    exact (split_strip_lines content pre post m Hs).
Qed.

(** X4. The lines of the result in general: with [m] the first line that
    holds the marker, the last line before it is blanked when, trimmed, it
    is three backticks followed by word characters, the first line after
    it is blanked when, trimmed, it is exactly three backticks, and all
    other lines, any later marker line and its fences included, stay. *)
Theorem strip_result_lines
        (content : jsstring) (pre post : list jsstring) (m : jsstring) :
  split_lines content = pre ++ m :: post ->
  Forall unmarked pre ->
  includes m ARTIFACT_MARKER = true ->
  split_lines (stripCodeFenceFromArtifact content)
  = blank_last is_open_fence pre ++ m :: blank_first is_close_fence post.
Proof.
  intros Hs Hpre Hm.
  rewrite (strip_on_lines content pre post m Hs Hpre Hm).
  exact (split_strip_lines content pre post m Hs).
Qed.

Lemma strip_result_lines_witness :
  let content :=
    u "```xml" ++ LF :: u "first __boltArtifact__" ++ LF :: u "text" ++ LF
      :: u "```" ++ LF :: u "second __boltArtifact__" ++ LF :: u "```" in
  split_lines (stripCodeFenceFromArtifact content)
  = [[]; u "first __boltArtifact__"; u "text"; u "```";
     u "second __boltArtifact__"; u "```"].
Proof.
  intros content.
  apply (strip_result_lines content [u "```xml"]
           [u "text"; u "```"; u "second __boltArtifact__"; u "```"]
           (u "first __boltArtifact__")).
  - vm_compute. reflexivity.
  - repeat constructor.
  - vm_compute. reflexivity.
Defined.

(** X5. When neither neighbour of the first marker line is a fence of the
    recognised shape (or the neighbour does not exist), the input is
    returned as it is. *)
Theorem strip_without_adjacent_fence_unchanged
        (content : jsstring) (pre post : list jsstring) (m : jsstring) :
  split_lines content = pre ++ m :: post ->
  Forall unmarked pre ->
  includes m ARTIFACT_MARKER = true ->
  (forall before l, pre = before ++ [l] -> is_open_fence (trim l) = false) ->
  (forall l after, post = l :: after -> is_close_fence (trim l) = false) ->
  stripCodeFenceFromArtifact content = content.
Proof.
  intros Hs Hpre Hm Hopen Hclose.
  rewrite (strip_on_lines content pre post m Hs Hpre Hm).
  rewrite <- (join_split content), Hs. f_equal.
  unfold strip_lines. f_equal.
  - destruct pre as [|l before _] using rev_ind; [reflexivity|].
    rewrite blank_last_snoc. unfold blank_if.
    now rewrite (Hopen before l eq_refl).
  - f_equal. destruct post as [|l after]; [reflexivity|].
    simpl. unfold blank_if. now rewrite (Hclose l after eq_refl).
Qed.

Lemma strip_without_adjacent_fence_unchanged_witness :
  let content :=
    u "```c++" ++ LF :: u "<div class=__boltArtifact__>" ++ LF :: u "````" in
  stripCodeFenceFromArtifact content = content.
Proof.
  intros content.
  apply (strip_without_adjacent_fence_unchanged content
           [u "```c++"] [u "````"] (u "<div class=__boltArtifact__>")).
  - vm_compute. reflexivity.
  - repeat constructor.
  - vm_compute. reflexivity.
  - intros before l E. destruct before as [|x [|y before]]; try discriminate E.
    injection E as <-. vm_compute. reflexivity.
  - intros l after E. injection E as <- _. vm_compute. reflexivity.
Defined.

(* ===================================================================== *)
(** ** Further properties of components.pre *)
(* ===================================================================== *)

Section PreMore.

Lemma take_word_all_word (s : jsstring) : forallb is_word (take_word s) = true.
Proof.
  induction s as [|c s IH]; simpl; [reflexivity|].
  destruct (is_word c) eqn:E; simpl; [now rewrite E | reflexivity].
Qed.

Lemma take_word_app (name rest : jsstring) :
  forallb is_word name = true ->
  (rest = [] \/ exists c rest', rest = c :: rest' /\ is_word c = false) ->
  take_word (name ++ rest) = name.
Proof.
  intros Hw Hrest. induction name as [|c name IH]; simpl in *.
  - destruct Hrest as [-> | (c & rest' & -> & Hc)]; simpl; [reflexivity|].
    now rewrite Hc.
  - apply andb_true_iff in Hw as [Hc Hw]. now rewrite Hc, IH.
Qed.

Lemma strip_prefix_app (p s : jsstring) : strip_prefix p (p ++ s) = Some s.
Proof.
  induction p as [|c p IH]; simpl; [reflexivity|]. now rewrite N.eqb_refl.
Qed.

Lemma strip_prefix_starts_with (p s rest : jsstring) :
  strip_prefix p s = Some rest -> starts_with p s = true.
Proof.
  revert s; induction p as [|c p IH]; intros [|d s] H; simpl in *;
    try reflexivity; try discriminate.
  destruct (N.eqb c d); [apply (IH _ H) | discriminate].
Qed.

Lemma language_exec_unfold (s : jsstring) :
  language_exec s =
  match language_match_here s with
  | Some w => Some w
  | None => match s with [] => None | _ :: s' => language_exec s' end
  end.
Proof. destruct s; reflexivity. Qed.

Lemma language_match_here_word (s w : jsstring) :
  language_match_here s = Some w -> w <> [] /\ forallb is_word w = true.
Proof.
  unfold language_match_here.
  destruct (strip_prefix (u "language-") s) as [rest|]; [|discriminate].
  pose proof (take_word_all_word rest) as Hw.
  destruct (take_word rest) as [|c w']; [discriminate|].
  intros E. injection E as <-. split; [discriminate | exact Hw].
Qed.

Lemma language_exec_word (s w : jsstring) :
  language_exec s = Some w -> w <> [] /\ forallb is_word w = true.
Proof.
  induction s as [|c s IH]; rewrite language_exec_unfold;
    destruct (language_match_here _) as [w'|] eqn:E; intros H.
  - injection H as <-. exact (language_match_here_word _ _ E).
  - discriminate H.
  - injection H as <-. exact (language_match_here_word _ _ E).
  - exact (IH H).
Qed.

Lemma language_exec_includes (s w : jsstring) :
  language_exec s = Some w -> includes s (u "language-") = true.
Proof.
  assert (Here : forall t w', language_match_here t = Some w' ->
                              starts_with (u "language-") t = true).
  { intros t w'. unfold language_match_here.
    destruct (strip_prefix (u "language-") t) as [rest|] eqn:E; [|discriminate].
    intros _. exact (strip_prefix_starts_with _ _ _ E). }
  induction s as [|c s IH]; rewrite language_exec_unfold, includes_unfold;
    destruct (language_match_here _) as [w'|] eqn:E; intros H.
  - now rewrite (Here _ _ E).
  - discriminate H.
  - now rewrite (Here _ _ E).
  - rewrite (IH H). apply orb_true_r.
Qed.

Lemma or_empty_same (s : jsstring) : match s with [] => [] | c :: t => c :: t end = s.
Proof. now destruct s. Qed.

End PreMore.

(** X6. Whatever the class of the [code] element is, the language handed
    to the code-block component is a non-empty string of word characters
    ([A-Za-z0-9_]). *)
Theorem language_is_a_word (className : PropValue) :
  language_of className <> [] /\
  forallb is_word (language_of className) = true.
Proof.
  unfold language_of.
  destruct (language_exec _) as [w|] eqn:E.
  - exact (language_exec_word _ _ E).
  - split; [discriminate | reflexivity].
Qed.

(** X7. When the class, converted to a string, starts with [language-]
    followed by a non-empty run of word characters that ends the string or
    is followed by a character outside [\w], the language is that run: a
    class list joins with commas, so the first token decides, and
    [language-c++] gives [c]. *)
Theorem language_of_leading_token (className : PropValue) (name rest : jsstring) :
  to_string className = u "language-" ++ name ++ rest ->
  name <> [] ->
  forallb is_word name = true ->
  (rest = [] \/ exists c rest', rest = c :: rest' /\ is_word c = false) ->
  language_of className = name.
Proof.
  intros Hs Hne Hw Hrest. unfold language_of.
  rewrite or_empty_same, Hs, language_exec_unfold.
  unfold language_match_here.
  rewrite strip_prefix_app, (take_word_app name rest Hw Hrest).
  destruct name; [congruence | reflexivity].
Qed.

Lemma language_of_leading_token_witness :
  language_of (PList [u "language-ts"; u "hljs"]) = u "ts" /\
  language_of (PString (u "language-c++")) = u "c".
Proof.
  split.
  - apply (language_of_leading_token _ (u "ts") (u ",hljs")).
    + reflexivity.
    + discriminate.
    + reflexivity.
    + right. exists 44%N, (u "hljs"). split; reflexivity.
  - apply (language_of_leading_token _ (u "c") (u "++")).
    + reflexivity.
    + discriminate.
    + reflexivity.
    + right. exists 43%N, (u "+"). split; reflexivity.
Defined.

(** X8. A class that, converted to a string, does not contain [language-]
    gives the default language [plaintext]. *)
Theorem language_defaults_without_prefix (className : PropValue) :
  includes (to_string className) (u "language-") = false ->
  language_of className = u "plaintext".
Proof.
  intros H. unfold language_of. rewrite or_empty_same.
  destruct (language_exec (to_string className)) as [w|] eqn:E; [|reflexivity].
  rewrite (language_exec_includes _ _ E) in H. discriminate H.
Qed.

Lemma language_defaults_without_prefix_witness :
  language_of (PList [u "hljs"; u "lang-js"]) = u "plaintext".
Proof.
  apply language_defaults_without_prefix. vm_compute. reflexivity.
Defined.

(** X9. The pre-block renderer throws on exactly one shape of input: the
    first child of the node is a [code] element without children.  On
    every other input it returns. *)
Theorem pre_throws_exactly_on_empty_code
        (ReactNode RestProps : Type) (props : PreProps ReactNode RestProps) :
  (exists e, components_pre props = Throw e) <->
  (exists properties, firstChild props = Some (HElement (u "code") properties [])).
Proof.
  unfold components_pre, firstChild.
  destruct (children_or_empty (pre_node props)) as [|c more]; simpl.
  - split; intros [x H]; discriminate H.
  - destruct c as [v|v|tagName properties children].
    + split; intros [x H]; discriminate H.
    + split; intros [x H]; discriminate H.
    + destruct (string_eqb tagName (u "code")) eqn:Etag.
      * apply string_eqb_eq in Etag. subst tagName.
        destruct children as [|[v|v|t p cs] children].
        -- split; [intros _; now exists properties | intros _; eexists; reflexivity].
        -- split; intros [x H]; discriminate H.
        -- split; intros [x H]; discriminate H.
        -- split; intros [x H]; discriminate H.
      * split; [intros [x H]; discriminate H|].
        intros [ps H]. injection H as -> _ _.
        vm_compute in Etag. discriminate Etag.
Qed.

(** X10. A code block is rendered only from a first child that is a
    [code] element starting with a text; the block shows that text, and
    it receives every property of the element except [className], which
    is consumed by the language extraction. *)
Theorem pre_code_block_origin
        (ReactNode RestProps : Type) (props : PreProps ReactNode RestProps)
        (code language : jsstring) (rest : Properties) :
  components_pre props = Return (CodeBlock code language rest) ->
  exists properties siblings,
    firstChild props = Some (HElement (u "code") properties (HText code :: siblings)) /\
    language = language_of (prop_get properties (u "className")) /\
    prop_get rest (u "className") = PUndefined /\
    forall key, key <> u "className" -> prop_get rest key = prop_get properties key.
Proof.
  unfold components_pre, firstChild.
  destruct (children_or_empty (pre_node props)) as [|c more]; simpl;
    [discriminate|].
  destruct c as [v|v|tagName properties children]; try discriminate.
  destruct (string_eqb tagName (u "code")) eqn:Etag; [|discriminate].
  apply string_eqb_eq in Etag. subst tagName.
  destruct children as [|[v|v|t p cs] siblings]; try discriminate.
  intros H. injection H as <- <- <-.
  exists properties, siblings. repeat split.
  - induction properties as [|[k v'] ps IH]; simpl; [reflexivity|].
    destruct (string_eqb k (u "className")) eqn:E; [exact IH|].
    simpl. now rewrite E.
  - intros key Hkey.
    induction properties as [|[k v'] ps IH]; simpl; [reflexivity|].
    destruct (string_eqb k (u "className")) eqn:E.
    + apply string_eqb_eq in E. subst k.
      rewrite (string_eqb_neq (u "className") key) by congruence. exact IH.
    + simpl. rewrite IH. reflexivity.
Qed.

Lemma pre_code_block_origin_witness :
  let properties := [(u "className", PList [u "language-js"]);
                     (u "dataLine", PString (u "3"))] in
  let props :=
    {| pre_children := tt;
       pre_node := Some (HElement (u "pre") []
                           [HElement (u "code") properties [HText (u "x = 1")]]);
       pre_rest := tt |} in
  exists ps siblings,
    firstChild props = Some (HElement (u "code") ps (HText (u "x = 1") :: siblings)) /\
    u "js" = language_of (prop_get ps (u "className")) /\
    prop_get [(u "dataLine", PString (u "3"))] (u "className") = PUndefined /\
    forall key, key <> u "className" ->
      prop_get [(u "dataLine", PString (u "3"))] key = prop_get ps key.
Proof.
  intros properties props.
  apply (pre_code_block_origin unit unit props (u "x = 1") (u "js")
           [(u "dataLine", PString (u "3"))]).
  vm_compute. reflexivity.
Defined.

(* ===================================================================== *)
(** ** Further properties of the quick-action button *)
(* ===================================================================== *)

From Stdlib Require DecimalN DecimalPos.

Section ButtonMore.

Variable resolve_url : jsstring -> jsstring -> option jsstring.

Lemma strict_eq_string_true (v : PropValue) (s : jsstring) :
  strict_eq_string v s = true -> v = PString s.
Proof.
  destruct v; simpl; try discriminate.
  intros H. apply string_eqb_eq in H. now subst.
Qed.

Lemma u_inj (a b : string) : u a = u b -> a = b.
Proof.
  unfold u. intros H.
  rewrite <- (string_of_list_ascii_of_string a), <- (string_of_list_ascii_of_string b).
  f_equal. revert H.
  generalize (list_ascii_of_string a) as la, (list_ascii_of_string b) as lb.
  induction la as [|x la IH]; intros [|y lb] H; simpl in H; try discriminate;
    [reflexivity|].
  injection H as Hxy Hrest. f_equal; [|now apply IH].
  rewrite <- (ascii_N_embedding x), <- (ascii_N_embedding y). now rewrite Hxy.
Qed.

Lemma to_uint_nonnil (n : N) : N.to_uint n <> Decimal.Nil.
Proof.
  destruct n as [|p]; [discriminate|].
  apply DecimalPos.Unsigned.to_uint_nonnil.
Qed.

(** Different numbers print differently. *)
Lemma decimal_inj (n n' : N) : decimal n = decimal n' -> n = n'.
Proof.
  unfold decimal. intros H. apply u_inj in H.
  apply DecimalN.Unsigned.to_uint_inj.
  pose proof (NilZero.usu (N.to_uint n) (to_uint_nonnil n)) as E.
  rewrite H, (NilZero.usu (N.to_uint n') (to_uint_nonnil n')) in E.
  now injection E.
Qed.

(** The four ways a click can go, read off the handler. *)
Lemma onClick_cases (qa : QuickAction) (env : Env) :
  (qa_type qa = PString (u "file") /\
   Markdown.onClick resolve_url qa env = [OpenArtifactInWorkbench (qa_path qa)]) \/
  (qa_type qa = PString (u "message") /\ append env = true /\
   Markdown.onClick resolve_url qa env =
   [Append {| msg_id := u "quick-action-message-" ++ decimal (now env);
              msg_content := [TextPart (annotated_text env (qa_message qa))];
              msg_role := RoleUser |};
    ConsoleLog (u "Message appended:") (qa_message qa)]) \/
  (qa_type qa = PString (u "implement") /\ append env = true /\
   setChatMode env = true /\
   Markdown.onClick resolve_url qa env =
   [SetChatMode Build;
    Append {| msg_id := u "quick-action-implement-" ++ decimal (now env);
              msg_content := [TextPart (annotated_text env (qa_message qa))];
              msg_role := RoleUser |}]) \/
  (qa_type qa = PString (u "link") /\
   exists href, qa_href qa = PString href /\
     Markdown.onClick resolve_url qa env =
     match resolve_url href (origin env) with
     | Some url => [WindowOpen url (u "_blank") (u "noopener,noreferrer")]
     | None => [ConsoleError (u "Invalid URL:") (qa_href qa)]
     end) \/
  Markdown.onClick resolve_url qa env = [].
Proof.
  unfold Markdown.onClick.
  destruct (strict_eq_string (qa_type qa) (u "file")) eqn:Ef.
  { left. split; [now apply strict_eq_string_true | reflexivity]. }
  destruct (strict_eq_string (qa_type qa) (u "message")) eqn:Em;
    [destruct (append env) eqn:Ea|]; simpl andb; cbv iota.
  { right; left. repeat split. now apply strict_eq_string_true. }
  { apply strict_eq_string_true in Em. rewrite Em.
    do 4 right. reflexivity. }
  destruct (strict_eq_string (qa_type qa) (u "implement")) eqn:Ei;
    [destruct (append env) eqn:Ea; [destruct (setChatMode env) eqn:Es|]|];
    simpl andb; cbv iota.
  { do 2 right; left. repeat split. now apply strict_eq_string_true. }
  { apply strict_eq_string_true in Ei. rewrite Ei. do 4 right. reflexivity. }
  { apply strict_eq_string_true in Ei. rewrite Ei. do 4 right. reflexivity. }
  destruct (strict_eq_string (qa_type qa) (u "link")) eqn:El;
    [destruct (qa_href qa) as [| |b|href|l] eqn:Eh|]; simpl andb; cbv iota;
    try (do 4 right; reflexivity).
  do 3 right; left. split; [now apply strict_eq_string_true|].
  exists href. split; reflexivity.
Qed.

End ButtonMore.

(** X11. Whatever the button and the environment, a click appends at most
    one message, and only when [append] was supplied and the type is
    [message], or [implement] with [setChatMode] supplied too; an appended
    message always has role [user] and the annotated text. *)
Theorem click_appends_only_annotated_user_message
        (resolve_url : jsstring -> jsstring -> option jsstring)
        (qa : QuickAction) (env : Env) (m : Message) :
  In m (appended_messages (Markdown.onClick resolve_url qa env)) ->
  appended_messages (Markdown.onClick resolve_url qa env) = [m] /\
  append env = true /\
  (qa_type qa = PString (u "message") \/
   qa_type qa = PString (u "implement") /\ setChatMode env = true) /\
  msg_role m = RoleUser /\
  msg_content m = [TextPart (annotated_text env (qa_message qa))].
Proof.
  destruct (onClick_cases resolve_url qa env)
    as [[_ E] | [(Ht & Ha & E) | [(Ht & Ha & Hs & E) | [(_ & href & _ & E) | E]]]];
    rewrite E; simpl.
  - intros [].
  - intros [<- | []]. repeat split; auto.
  - intros [<- | []]. repeat split; auto.
  - destruct (resolve_url href (origin env)); intros [].
  - intros [].
Qed.

Lemma click_appends_only_annotated_user_message_witness :
  let env := {| append := true; setChatMode := true; model := None;
                provider := None; now := 5%N; origin := u "http://localhost" |} in
  let qa := quick_action_of [(u "data-type", PString (u "implement"));
                             (u "data-message", PString (u "Do it"))] in
  let m := {| msg_id := u "quick-action-implement-5";
              msg_content :=
                [TextPart (u "[Model: undefined]" ++ [LF; LF]
                           ++ u "[Provider: undefined]" ++ [LF; LF] ++ u "Do it")];
              msg_role := RoleUser |} in
  appended_messages (Markdown.onClick (fun _ _ => None) qa env) = [m] /\
  append env = true /\
  (qa_type qa = PString (u "message") \/
   qa_type qa = PString (u "implement") /\ setChatMode env = true) /\
  msg_role m = RoleUser /\
  msg_content m = [TextPart (annotated_text env (qa_message qa))].
Proof.
  intros env qa m.
  apply (click_appends_only_annotated_user_message (fun _ _ => None) qa env m).
  vm_compute. left. reflexivity.
Defined.

(** X12. The chat mode is switched only to [build], only by a button of
    type [implement] with both capabilities supplied, and always together
    with, and before, the append of the message: a click never switches
    the mode without sending. *)
Theorem click_switches_mode_only_before_append
        (resolve_url : jsstring -> jsstring -> option jsstring)
        (qa : QuickAction) (env : Env) (mode : ChatMode) :
  In (SetChatMode mode) (Markdown.onClick resolve_url qa env) ->
  mode = Build /\
  qa_type qa = PString (u "implement") /\
  append env = true /\ setChatMode env = true /\
  exists m, Markdown.onClick resolve_url qa env = [SetChatMode Build; Append m].
Proof.
  destruct (onClick_cases resolve_url qa env)
    as [[_ E] | [(Ht & Ha & E) | [(Ht & Ha & Hs & E) | [(_ & href & _ & E) | E]]]];
    rewrite E; simpl.
  - intros [H | []]. discriminate H.
  - intros [H | [H | []]]; discriminate H.
  - intros [H | [H | []]]; [|discriminate H].
    injection H as <-. repeat split; auto. eexists. reflexivity.
  - destruct (resolve_url href (origin env)); intros [H | []]; discriminate H.
  - intros [].
Qed.

Lemma click_switches_mode_only_before_append_witness :
  let env := {| append := true; setChatMode := true; model := None;
                provider := None; now := 5%N; origin := u "http://localhost" |} in
  let qa := quick_action_of [(u "dataType", PString (u "implement"))] in
  Build = Build /\
  qa_type qa = PString (u "implement") /\
  append env = true /\ setChatMode env = true /\
  exists m, Markdown.onClick (fun _ _ => None) qa env = [SetChatMode Build; Append m].
Proof.
  intros env qa.
  apply (click_switches_mode_only_before_append (fun _ _ => None) qa env Build).
  vm_compute. left. reflexivity.
Defined.

(** X13. A window is opened only by a button of type [link] whose href is
    a string that resolves against the current origin; it is opened on the
    resolved URL, in a new browsing context ([_blank]) and always with
    [noopener,noreferrer]. *)
Theorem click_opens_only_resolved_links
        (resolve_url : jsstring -> jsstring -> option jsstring)
        (qa : QuickAction) (env : Env) (url target features : jsstring) :
  In (WindowOpen url target features) (Markdown.onClick resolve_url qa env) ->
  qa_type qa = PString (u "link") /\
  (exists href, qa_href qa = PString href /\
                resolve_url href (origin env) = Some url) /\
  target = u "_blank" /\ features = u "noopener,noreferrer" /\
  Markdown.onClick resolve_url qa env = [WindowOpen url target features].
Proof.
  destruct (onClick_cases resolve_url qa env)
    as [[_ E] | [(Ht & Ha & E) | [(Ht & Ha & Hs & E) | [(Ht & href & Hh & E) | E]]]];
    rewrite E; simpl.
  - intros [H | []]. discriminate H.
  - intros [H | [H | []]]; discriminate H.
  - intros [H | [H | []]]; discriminate H.
  - destruct (resolve_url href (origin env)) as [url'|] eqn:Er;
      intros [H | []]; [|discriminate H].
    injection H as <- <- <-. repeat split; auto.
    exists href. split; assumption.
  - intros [].
Qed.

Lemma click_opens_only_resolved_links_witness :
  let resolve href base :=
    match href with
    | 47%N :: _ => Some (base ++ href)
    | _ => None
    end in
  let env := {| append := false; setChatMode := false; model := None;
                provider := None; now := 0%N; origin := u "http://localhost" |} in
  let qa := quick_action_of [(u "dataType", PString (u "link"));
                             (u "dataHref", PString (u "/foo"))] in
  qa_type qa = PString (u "link") /\
  (exists href, qa_href qa = PString href /\
                resolve href (origin env) = Some (u "http://localhost/foo")) /\
  u "_blank" = u "_blank" /\ u "noopener,noreferrer" = u "noopener,noreferrer" /\
  Markdown.onClick resolve qa env
  = [WindowOpen (u "http://localhost/foo") (u "_blank") (u "noopener,noreferrer")].
Proof.
  intros resolve env qa.
  apply (click_opens_only_resolved_links resolve qa env).
  vm_compute. left. reflexivity.
Defined.

(** X14. A click is a no-op when the capability its type needs was not
    supplied: type [message] without [append], type [implement] without
    [append] or without [setChatMode], and type [link] with an href that is
    not a string. *)
Theorem click_without_capability_is_noop
        (resolve_url : jsstring -> jsstring -> option jsstring)
        (qa : QuickAction) (env : Env) :
  qa_type qa = PString (u "message") /\ append env = false \/
  qa_type qa = PString (u "implement") /\
    (append env = false \/ setChatMode env = false) \/
  qa_type qa = PString (u "link") /\ is_string (qa_href qa) = false ->
  Markdown.onClick resolve_url qa env = [].
Proof.
  unfold Markdown.onClick.
  intros [[-> Ha] | [[-> Hc] | [-> Hh]]].
  - rewrite Ha. reflexivity.
  - change (strict_eq_string (PString (u "implement")) (u "file")) with false.
    change (strict_eq_string (PString (u "implement")) (u "message")) with false.
    change (strict_eq_string (PString (u "implement")) (u "implement")) with true.
    change (strict_eq_string (PString (u "implement")) (u "link")) with false.
    cbv iota. simpl andb.
    destruct Hc as [-> | ->]; [reflexivity | now destruct (append env)].
  - rewrite Hh. reflexivity.
Qed.

Lemma click_without_capability_is_noop_witness :
  Markdown.onClick (fun href _ => Some href)
    (quick_action_of [(u "dataType", PString (u "implement"));
                      (u "dataMessage", PString (u "Build it"))])
    {| append := true; setChatMode := false; model := None; provider := None;
       now := 1%N; origin := u "http://localhost" |}
  = [].
Proof.
  apply click_without_capability_is_noop.
  right; left. split; [reflexivity | right; reflexivity].
Defined.

(** X15. The identifier of an appended message is determined by the type
    of the button and the time of the click: two clicks on the same button
    give their messages the same identifier exactly when [Date.now()]
    returned the same number, so clicks within one millisecond collide. *)
Theorem appended_message_ids_follow_the_clock
        (resolve_url : jsstring -> jsstring -> option jsstring)
        (qa : QuickAction) (env1 env2 : Env) (m1 m2 : Message) :
  In m1 (appended_messages (Markdown.onClick resolve_url qa env1)) ->
  In m2 (appended_messages (Markdown.onClick resolve_url qa env2)) ->
  (msg_id m1 = msg_id m2 <-> now env1 = now env2).
Proof.
  destruct (onClick_cases resolve_url qa env1)
    as [[_ E1] | [(T1 & _ & E1) | [(T1 & _ & _ & E1) | [(_ & h1 & _ & E1) | E1]]]];
    rewrite E1; simpl.
  - intros [].
  - intros [<- | []].
    destruct (onClick_cases resolve_url qa env2)
      as [[T2 _] | [(_ & _ & E2) | [(T2 & _) | [(T2 & _) | E2]]]];
      try (rewrite T1 in T2; discriminate T2); rewrite E2; simpl;
      [|intros []].
    intros [<- | []]. simpl. split.
    + intros H. apply decimal_inj.
      exact (app_inv_head (u "quick-action-message-") _ _ H).
    + now intros ->.
  - intros [<- | []].
    destruct (onClick_cases resolve_url qa env2)
      as [[T2 _] | [(T2 & _) | [(_ & _ & _ & E2) | [(T2 & _) | E2]]]];
      try (rewrite T1 in T2; discriminate T2); rewrite E2; simpl;
      [|intros []].
    intros [<- | []]. simpl. split.
    + intros H. apply decimal_inj.
      exact (app_inv_head (u "quick-action-implement-") _ _ H).
    + now intros ->.
  - destruct (resolve_url h1 (origin env1)); intros [].
  - intros [].
Qed.

Lemma appended_message_ids_follow_the_clock_witness :
  let env t := {| append := true; setChatMode := false; model := None;
                  provider := None; now := t; origin := u "http://localhost" |} in
  let qa := quick_action_of [(u "dataType", PString (u "message"))] in
  let m t := {| msg_id := u "quick-action-message-" ++ decimal t;
                msg_content := [TextPart (annotated_text (env t) PUndefined)];
                msg_role := RoleUser |} in
  (msg_id (m 7%N) = msg_id (m 8%N) <-> 7%N = 8%N).
Proof.
  intros env qa m.
  apply (appended_message_ids_follow_the_clock (fun _ _ => None) qa
           (env 7%N) (env 8%N) (m 7%N) (m 8%N)).
  - vm_compute. left. reflexivity.
  - vm_compute. left. reflexivity.
Defined.

(** X16. A type that is not a string (a missing attribute, [null], a
    boolean, a token list) gets the question icon and an inert click. *)
Theorem non_string_type_is_inert
        (resolve_url : jsstring -> jsstring -> option jsstring)
        (ps : Properties) (env : Env) :
  is_string (qa_type (quick_action_of ps)) = false ->
  qa_iconClass (quick_action_of ps) = VString (u "i-ph:question") /\
  Markdown.onClick resolve_url (quick_action_of ps) env = [].
Proof.
  intros H. split.
  - apply (unknown_type_question_icon resolve_url);
      destruct (qa_type (quick_action_of ps)); try discriminate H;
      vm_compute; intuition discriminate.
  - apply unknown_type_no_dispatch; intros E; rewrite E in H; discriminate H.
Qed.

Lemma non_string_type_is_inert_witness :
  let ps := [(u "dataBoltQuickAction", PString (u "true"));
             (u "dataType", PBool true)] in
  qa_iconClass (quick_action_of ps) = VString (u "i-ph:question") /\
  Markdown.onClick (fun href _ => Some href) (quick_action_of ps)
    {| append := true; setChatMode := true; model := None; provider := None;
       now := 1%N; origin := u "http://localhost" |} = [].
Proof.
  intros ps. apply non_string_type_is_inert. reflexivity.
Defined.

(** X17. Which types get the question icon: exactly those that are neither
    a key of the icon table nor the name of a property that the table
    inherits from [Object.prototype]. *)
Theorem question_icon_iff_unlisted_type (ps : Properties) :
  let safeType :=
    match qa_type (quick_action_of ps) with PString s => s | _ => [] end in
  qa_iconClass (quick_action_of ps) = VString (u "i-ph:question") <->
  ~ In safeType ([u "file"; u "message"; u "implement"; u "link"]
                 ++ object_prototype_keys).
Proof.
  cbv zeta. split.
  - unfold quick_action_of. cbv zeta. simpl qa_type. simpl qa_iconClass.
    generalize (match js_or (prop_get ps (u "data-type")) (prop_get ps (u "dataType"))
                with PString s => s | _ => [] end) as safeType.
    intros safeType Hicon Hin. simpl in Hin.
    repeat (destruct Hin as [<- | Hin]; [vm_compute in Hicon; discriminate Hicon|]).
    contradiction.
  - intros H. apply (unknown_type_question_icon (fun _ _ => None)).
    + intros Hin. apply H, in_or_app. now left.
    + intros Hin. apply H, in_or_app. now right.
Qed.

(* ===================================================================== *)
(** ** Further properties of the history row *)
(* ===================================================================== *)

(** Runs the click of every row, state and target, and hands the effects
    to [finish]. *)
Ltac each_click props editing target H finish :=
  destruct props as [it del dup sel isSel tog];
  destruct del, dup, sel, tog, editing, target;
  vm_compute in H; try discriminate H;
  injection H as <-; finish.

(** X18. No click, on any part of the row, in any mode, calls the
    toggle-selection callback more than once; when it is called, the row
    is in selection mode and the callback receives the identifier of the
    item. *)
Theorem click_toggles_at_most_once
        (props : HistoryItemProps) (editing : bool) (target : Part)
        (fx : list Effect) :
  click (render props editing) target = Some fx ->
  toggle_calls fx <= 1 /\
  forall i, In (ToggleSelection i) fx ->
            i = id (item props) /\ selectionMode props = true.
Proof.
  intros H.
  each_click props editing target H
    ltac:(split; [vm_compute; lia |
                  simpl; intros i Hin;
                  repeat (destruct Hin as [Hin | Hin];
                          [try discriminate Hin; injection Hin as <-; now split|]);
                  contradiction]).
Qed.

Lemma click_toggles_at_most_once_witness :
  let it := {| id := u "42"; urlId := u "my-chat"; description := u "My chat" |} in
  let props :=
    {| item := it; onDelete := true; onDuplicate := true; selectionMode := true;
       isSelected := true; onToggleSelection := true |} in
  let fx := [ToggleEditMode; ToggleSelection (u "42")] in
  toggle_calls fx <= 1 /\
  forall i, In (ToggleSelection i) fx -> i = u "42" /\ true = true.
Proof.
  intros it props fx.
  apply (click_toggles_at_most_once props false RenameButton fx).
  reflexivity.
Defined.

(** X19. In selection mode no click on the row follows the link, whatever
    part it lands on and whether or not the row is being renamed. *)
Theorem selection_mode_never_navigates
        (props : HistoryItemProps) (editing : bool) (target : Part)
        (fx : list Effect) :
  selectionMode props = true ->
  click (render props editing) target = Some fx ->
  navigated fx = false.
Proof.
  intros Hsel H. revert Hsel.
  each_click props editing target H ltac:(simpl; intros Hsel; (reflexivity || discriminate Hsel)).
Qed.

Lemma selection_mode_never_navigates_witness :
  let it := {| id := u "42"; urlId := u "my-chat"; description := u "My chat" |} in
  let props :=
    {| item := it; onDelete := false; onDuplicate := false; selectionMode := true;
       isSelected := false; onToggleSelection := true |} in
  navigated [ToggleSelection (u "42")] = false.
Proof.
  intros it props.
  apply (selection_mode_never_navigates props false ActionsOverlay
           [ToggleSelection (u "42")]);
    reflexivity.
Defined.

(** X20. A click follows the link only outside selection mode and while
    the row is not being renamed; it then goes to [/chat/<urlId>] of the
    item, and no callback runs in the same click. *)
Theorem navigation_only_to_own_chat
        (props : HistoryItemProps) (editing : bool) (target : Part)
        (fx : list Effect) (href : jsstring) :
  click (render props editing) target = Some fx ->
  In (Navigate href) fx ->
  href = u "/chat/" ++ urlId (item props) /\
  selectionMode props = false /\ editing = false /\
  fx = [Navigate href].
Proof.
  intros H.
  each_click props editing target H
    ltac:(simpl; intros Hin;
          repeat (destruct Hin as [Hin | Hin];
                  [try discriminate Hin; injection Hin as <-; now repeat split|]);
          contradiction).
Qed.

Lemma navigation_only_to_own_chat_witness :
  let it := {| id := u "42"; urlId := u "my-chat"; description := u "My chat" |} in
  let props :=
    {| item := it; onDelete := true; onDuplicate := true; selectionMode := false;
       isSelected := false; onToggleSelection := true |} in
  u "/chat/my-chat" = u "/chat/" ++ urlId (item props) /\
  selectionMode props = false /\ false = false /\
  [Navigate (u "/chat/my-chat")] = [Navigate (u "/chat/my-chat")].
Proof.
  intros it props.
  apply (navigation_only_to_own_chat props false ActionsGroup
           [Navigate (u "/chat/my-chat")] (u "/chat/my-chat")).
  - reflexivity.
  - left. reflexivity.
Defined.

(** X21. The checkbox and its wrapper are rendered in selection mode
    only.  A click on the checkbox reports the change through
    [handleCheckboxChange], which calls the toggle-selection callback, when
    supplied, once with the identifier of the item; the wrapper then stops
    the propagation, so that [handleItemClick] of the row does not toggle
    a second time, and a click on the wrapper beside the checkbox calls
    nothing. *)
Theorem checkbox_click_toggles_once (props : HistoryItemProps) (editing : bool) :
  click (render props editing) CheckboxBox
  = (if selectionMode props
     then Some (if onToggleSelection props
                then [ToggleSelection (id (item props))] else [])
     else None) /\
  click (render props editing) CheckboxWrapper
  = (if selectionMode props then Some [] else None).
Proof.
  destruct props as [it del dup sel isSel tog].
  destruct del, dup, sel, tog, editing; split; reflexivity.
Qed.



(** X23. Outside selection mode a click on an action button makes the one
    call that belongs to the button and nothing else: it does not
    navigate and does not toggle.  The duplicate button is rendered only
    when [onDuplicate] was supplied, and the delete button calls
    [onDelete] only when it was supplied. *)
Theorem action_click_outside_selection_mode (props : HistoryItemProps) :
  selectionMode props = false ->
  click (render props false) ExportButton = Some [ExportChat (id (item props))] /\
  click (render props false) RenameButton = Some [ToggleEditMode] /\
  click (render props false) DuplicateButton
  = (if onDuplicate props then Some [Duplicate (id (item props))] else None) /\
  click (render props false) DeleteButton
  = Some (if onDelete props then [Delete] else []).
Proof.
  intros Hsel. destruct props as [it del dup sel isSel tog].
  simpl in Hsel. subst sel.
  destruct del, dup, tog; repeat split; reflexivity.
Qed.

Lemma action_click_outside_selection_mode_witness :
  let it := {| id := u "42"; urlId := u "my-chat"; description := u "My chat" |} in
  let props :=
    {| item := it; onDelete := true; onDuplicate := false; selectionMode := false;
       isSelected := false; onToggleSelection := true |} in
  click (render props false) ExportButton = Some [ExportChat (u "42")] /\
  click (render props false) RenameButton = Some [ToggleEditMode] /\
  click (render props false) DuplicateButton = None /\
  click (render props false) DeleteButton = Some [Delete].
Proof.
  intros it props.
  apply (action_click_outside_selection_mode props). reflexivity.
Defined.

(** X24. In every mode a click on the delete button calls [onDelete], when
    supplied, and nothing else: it never toggles the selection and never
    navigates. *)
Theorem delete_click_only_deletes (props : HistoryItemProps) :
  exists fx,
    click (render props false) DeleteButton = Some fx /\
    fx = (if onDelete props then [Delete] else []) /\
    toggle_calls fx = 0 /\ navigated fx = false.
Proof.
  destruct props as [it del dup sel isSel tog].
  destruct del, dup, sel, tog; eexists; repeat split; reflexivity.
Qed.
